(** * The handler registry of persistentconn (handler_registry.go)

    A shallow embedding of the route table: the translation of a path
    pattern into a regular expression, the compiled expression and its
    leftmost-first search, the registry with [register] and [getHandler].

    Strings are sequences of bytes.  The regular-expression engine is the
    one of Go's package regexp (RE2 syntax, Perl flags, leftmost-first
    matching); the part of its syntax that the translated patterns can
    reach is embedded here, and a pattern that leaves that part is reported
    as [Unsupported] rather than guessed at.  Matching is byte-wise, which
    agrees with Go's rune-wise matching on ASCII paths.  Resource limits of
    the Go run time (memory, the parser's caps on the size and the nesting
    depth of an expression) are left out. *)

From Stdlib Require Import String Ascii List Bool Arith ZArith Lia.
Import ListNotations.

Local Open Scope string_scope.
Local Open Scope list_scope.

(* ================================================================== *)
(** ** Outcomes of a call *)

(** A call returns, panics (regexp.MustCompile on a pattern that Go's
    parser rejects), or uses regular-expression syntax that this embedding
    does not cover. *)
Inductive outcome (A : Type) : Type :=
| Returns (a : A)
| Panics
| Unsupported.

Arguments Returns {A} a.
Arguments Panics {A}.
Arguments Unsupported {A}.

Definition bind {A B : Type} (o : outcome A) (f : A -> outcome B) : outcome B :=
  match o with
  | Returns a => f a
  | Panics => Panics
  | Unsupported => Unsupported
  end.

Notation "x <- c ;; k" := (bind c (fun x => k))
  (at level 61, c at next level, right associativity).

(* ================================================================== *)
(** ** Package strings *)

Module strings.

(** strings.Split(s, sep) for a separator of one byte: the substrings
    between the separators, [n+1] of them for [n] separators. *)
Fixpoint Split (s : string) (sep : ascii) : list string :=
  match s with
  | EmptyString => [EmptyString]
  | String c s' =>
      if Ascii.eqb c sep then EmptyString :: Split s' sep
      else match Split s' sep with
           | [] => [String c EmptyString]
           | p :: ps => String c p :: ps
           end
  end.

(** strings.Join(elems, sep). *)
Fixpoint Join (elems : list string) (sep : string) : string :=
  match elems with
  | [] => EmptyString
  | [p] => p
  | p :: ps => (p ++ sep ++ Join ps sep)%string
  end.

(** strings.HasPrefix(s, prefix). *)
Definition HasPrefix (s prefix : string) : bool := String.prefix prefix s.

(** The slice expression s[1:] on a string that is not empty. *)
Definition tail (s : string) : string :=
  match s with
  | EmptyString => EmptyString
  | String _ s' => s'
  end.

End strings.

(* ================================================================== *)
(** ** Package regexp (the fragment the translated patterns reach) *)

Module regexp.

(** The Perl character classes \d \D \s \S \w \W. *)
Inductive perlClass : Type :=
| ClassDigit | ClassNotDigit
| ClassSpace | ClassNotSpace
| ClassWord | ClassNotWord.

(** One item between the brackets of a character class. *)
Inductive classItem : Type :=
| ItemChar (c : ascii)
| ItemPerl (k : perlClass).

(** A matcher of exactly one character. *)
Inductive atom : Type :=
| ALit (c : ascii)
| AClass (negated : bool) (items : list classItem).

(** Parsed expressions: concatenation, one character, greedy one-or-more
    of one character, and a capturing group with its index and name (the
    name is empty for a group written without one). *)
Inductive regex : Type :=
| REmpty
| ROne (a : atom)
| RPlus (a : atom)
| RCat (r1 r2 : regex)
| RGroup (idx : nat) (name : string) (body : regex).

Definition between (lo hi : nat) (c : ascii) : bool :=
  let n := nat_of_ascii c in Nat.leb lo n && Nat.leb n hi.

Definition isDigit (c : ascii) : bool := between 48 57 c.

(** isalnum of regexp/syntax: 0-9, A-Z, a-z. *)
Definition isalnum (c : ascii) : bool :=
  between 48 57 c || between 65 90 c || between 97 122 c.

Definition isWord (c : ascii) : bool :=
  isalnum c || Ascii.eqb c "_".

(** \s is [\t\n\f\r ]: the vertical tab is not part of it. *)
Definition isSpace (c : ascii) : bool :=
  between 9 10 c || between 12 13 c || Nat.eqb (nat_of_ascii c) 32.

Definition perlMatches (k : perlClass) (c : ascii) : bool :=
  match k with
  | ClassDigit => isDigit c
  | ClassNotDigit => negb (isDigit c)
  | ClassSpace => isSpace c
  | ClassNotSpace => negb (isSpace c)
  | ClassWord => isWord c
  | ClassNotWord => negb (isWord c)
  end.

Definition itemMatches (it : classItem) (c : ascii) : bool :=
  match it with
  | ItemChar d => Ascii.eqb d c
  | ItemPerl k => perlMatches k c
  end.

Definition atomMatches (a : atom) (c : ascii) : bool :=
  match a with
  | ALit d => Ascii.eqb d c
  | AClass negated items => xorb negated (existsb (fun it => itemMatches it c) items)
  end.

(** *** Parsing (regexp/syntax, Perl flags)

    The parser reads the expression from left to right, as Go's does, and
    stops at the first byte it cannot take: with [Panics] where Go's parser
    returns an error, with [Unsupported] where the syntax is outside the
    fragment. *)

(** An open parenthesis: its capture index, its name, and the nodes that
    precede it in the enclosing concatenation (latest first). *)
Record frame : Type := mkFrame {
  frameCap : nat;
  frameName : string;
  frameBefore : list regex
}.

Inductive mode : Type :=
| InSeq                                        (* in a concatenation *)
| InName (acc : string)                        (* after (?P< , before > *)
| InClass (negated : bool) (items : list classItem).  (* between [ and ] *)

Definition isASCII (c : ascii) : bool := Nat.ltb (nat_of_ascii c) 128.

Fixpoint allChars (f : ascii -> bool) (s : string) : bool :=
  match s with
  | EmptyString => true
  | String c s' => f c && allChars f s'
  end.

(** isValidCaptureName: not empty, letters, digits and underscore only. *)
Definition isValidCaptureName (name : string) : bool :=
  match name with
  | EmptyString => false
  | _ => allChars isWord name
  end.

(** A backslash escape inside a character class: a Perl class, or an
    escaped punctuation character, which stands for itself. *)
Definition classEscape (e : ascii) : option classItem :=
  if Ascii.eqb e "d" then Some (ItemPerl ClassDigit)
  else if Ascii.eqb e "D" then Some (ItemPerl ClassNotDigit)
  else if Ascii.eqb e "s" then Some (ItemPerl ClassSpace)
  else if Ascii.eqb e "S" then Some (ItemPerl ClassNotSpace)
  else if Ascii.eqb e "w" then Some (ItemPerl ClassWord)
  else if Ascii.eqb e "W" then Some (ItemPerl ClassNotWord)
  else if isASCII e && negb (isalnum e) then Some (ItemChar e)
  else None.

(** The characters with a meaning of their own in a concatenation. *)
Definition isMeta (c : ascii) : bool :=
  existsb (Ascii.eqb c)
    ["\"; "."; "+"; "*"; "?"; "("; ")"; "|"; "["; "]"; "{"; "}"; "^"; "$"]%char.

Definition concat (rs : list regex) : regex := fold_right RCat REmpty rs.

Fixpoint parse (t : string) (m : mode) (numCap : nat) (stack : list frame)
         (cur : list regex) {struct t} : outcome regex :=
  match t with
  | EmptyString =>
      match m, stack with
      | InSeq, [] => Returns (concat (rev cur))
      | _, _ => Panics   (* missing closing ) or ], name without > *)
      end
  | String c t' =>
      match m with
      | InName acc =>
          if Ascii.eqb c ">" then
            if isValidCaptureName acc then
              parse t' InSeq (S numCap) (mkFrame (S numCap) acc cur :: stack) []
            else Panics  (* invalid named capture *)
          else parse t' (InName (acc ++ String c EmptyString)) numCap stack cur
      | InClass negated items =>
          if Ascii.eqb c "]" then
            match items with
            | [] => Unsupported  (* a first ] is a literal *)
            | _ => parse t' InSeq numCap stack (ROne (AClass negated items) :: cur)
            end
          else if Ascii.eqb c "\" then
            match t' with
            | EmptyString => Panics  (* trailing backslash *)
            | String e t'' =>
                match classEscape e with
                | Some it => parse t'' (InClass negated (items ++ [it])) numCap stack cur
                | None => Unsupported
                end
            end
          else if Ascii.eqb c "[" || Ascii.eqb c "-" || negb (isASCII c) then
            Unsupported  (* POSIX classes, ranges, multi-byte runes *)
          else parse t' (InClass negated (items ++ [ItemChar c])) numCap stack cur
      | InSeq =>
          if Ascii.eqb c "(" then
            match t' with
            | String "?" (String "P" (String "<" t4)) =>
                parse t4 (InName EmptyString) numCap stack cur
            | String "?" _ => Unsupported  (* flags, non-capturing groups *)
            | _ => parse t' InSeq (S numCap)
                         (mkFrame (S numCap) EmptyString cur :: stack) []
            end
          else if Ascii.eqb c ")" then
            match stack with
            | [] => Panics  (* unexpected ) *)
            | f :: stack' =>
                parse t' InSeq numCap stack'
                      (RGroup (frameCap f) (frameName f) (concat (rev cur))
                         :: frameBefore f)
            end
          else if Ascii.eqb c "[" then
            match t' with
            | String "^" t'' => parse t'' (InClass true []) numCap stack cur
            | _ => parse t' (InClass false []) numCap stack cur
            end
          else if Ascii.eqb c "+" then
            match t' with
            | String "?" _ => Unsupported  (* non-greedy *)
            | _ =>
                match cur with
                | [] => Panics  (* missing argument to repetition operator *)
                | ROne a :: cur' => parse t' InSeq numCap stack (RPlus a :: cur')
                | RPlus _ :: _ => Panics  (* invalid nested repetition operator *)
                | _ => Unsupported  (* repetition of a group *)
                end
            end
          else if isMeta c || negb (isASCII c) then Unsupported
          else parse t' InSeq numCap stack (ROne (ALit c) :: cur)
      end
  end.

(** A compiled expression: its source text and its parse. *)
Record Regexp : Type := mkRegexp {
  expr : string;
  tree : regex
}.

(** regexp.MustCompile(str): Compile, with a panic for its error. *)
Definition MustCompile (str : string) : outcome Regexp :=
  r <- parse str InSeq 0 [] [] ;;
  Returns (mkRegexp str r).

(** The names of the capturing groups, in the order of their opening
    parentheses. *)
Fixpoint groupNames (r : regex) : list string :=
  match r with
  | REmpty | ROne _ | RPlus _ => []
  | RCat r1 r2 => groupNames r1 ++ groupNames r2
  | RGroup _ name body => name :: groupNames body
  end.

Definition NumSubexp (re : Regexp) : nat := length (groupNames (tree re)).

(** SubexpNames: element 0 stands for the whole match and is empty. *)
Definition SubexpNames (re : Regexp) : list string :=
  EmptyString :: groupNames (tree re).

(** *** Matching (leftmost-first, as Perl and Go's Compile) *)

(** The span (start and end offset) matched by each group, latest first. *)
Definition captures : Type := list (nat * (nat * nat)).

Definition result : Type := (nat * captures)%type.

Definition cont : Type := string -> nat -> captures -> option result.

(** Zero or more characters of [a], as many as the rest allows. *)
Fixpoint star (a : atom) (s : string) (pos : nat) (caps : captures) (k : cont)
  : option result :=
  match s with
  | String c s' =>
      if atomMatches a c then
        match star a s' (S pos) caps k with
        | Some res => Some res
        | None => k s pos caps
        end
      else k s pos caps
  | EmptyString => k s pos caps
  end.

(** [run r s pos caps k]: match [r] at the front of [s], which starts at
    offset [pos] of the subject, then continue with [k]; alternatives are
    tried in the order of preference. *)
Fixpoint run (r : regex) (s : string) (pos : nat) (caps : captures) (k : cont)
  : option result :=
  match r with
  | REmpty => k s pos caps
  | ROne a =>
      match s with
      | String c s' => if atomMatches a c then k s' (S pos) caps else None
      | EmptyString => None
      end
  | RPlus a =>
      match s with
      | String c s' => if atomMatches a c then star a s' (S pos) caps k else None
      | EmptyString => None
      end
  | RCat r1 r2 =>
      run r1 s pos caps (fun s' pos' caps' => run r2 s' pos' caps' k)
  | RGroup idx _ body =>
      run body s pos caps
          (fun s' pos' caps' => k s' pos' ((idx, (pos, pos')) :: caps'))
  end.

Definition accept : cont := fun _ pos caps => Some (pos, caps).

(** The leftmost start offset at which the expression matches. *)
Fixpoint search (r : regex) (s : string) (pos : nat)
  : option (nat * result) :=
  match run r s pos [] accept with
  | Some res => Some (pos, res)
  | None =>
      match s with
      | String _ s' => search r s' (S pos)
      | EmptyString => None
      end
  end.

Fixpoint lookupCap (idx : nat) (caps : captures) : option (nat * nat) :=
  match caps with
  | [] => None
  | (i, span) :: caps' => if Nat.eqb i idx then Some span else lookupCap idx caps'
  end.

Definition slice (s : string) (b e : nat) : string := substring b (e - b) s.

(** FindStringSubmatch: nil when there is no match, else the text of the
    leftmost match followed by the text of each group. *)
Definition FindStringSubmatch (re : Regexp) (s : string) : list string :=
  match search (tree re) s 0 with
  | None => []
  | Some (b, (e, caps)) =>
      slice s b e ::
      map (fun idx => match lookupCap idx caps with
                      | Some (b', e') => slice s b' e'
                      | None => EmptyString
                      end)
          (seq 1 (NumSubexp re))
  end.

End regexp.

(* ================================================================== *)
(** ** Types and helpers of the package declared in other files *)

(** Go's error values: an error carries its message; nil is [None] of
    [option error]. *)
Definition error : Type := string.

(** Modelled from the spec: Request is declared outside
    handler_registry.go.  It has the request's method and path, which are
    all that the registry reads, and a mapping of extracted parameters. *)
Record Request : Type := mkRequest {
  Method : string;
  Path : string;
  Params : list (string * string)
}.

(** Modelled from the spec: Response is declared outside
    handler_registry.go.  It has an integer status code and a body. *)
Record Response : Type := mkResponse {
  StatusCode : Z;
  Body : string
}.

(** Modelled from the spec: contains is a helper of the package declared
    outside handler_registry.go.  Method comparison is exact,
    case-sensitive string membership in the allowed methods. *)
Definition contains (elems : list string) (s : string) : bool :=
  existsb (String.eqb s) elems.

(** net/http: StatusNotFound. *)
Definition StatusNotFound : Z := 404.

(* ================================================================== *)
(** ** handler_registry.go *)

(** Handler is a function from a request to a response or an error. *)
Definition Handler : Type := Request -> Response * option error.

Definition NoMatchingHandler : Handler :=
  fun re =>
    (mkResponse StatusNotFound "The requested path is not found.", None).

Module route.

Record t : Type := mk {
  Pattern : regexp.Regexp;
  Handler : Handler;
  Methods : list string
}.

End route.

(** The body of the loop of translatePatternToRegexp: a part that starts
    with a colon becomes a named group, any other part stays as it is. *)
Definition translatePart (p : string) : string :=
  if strings.HasPrefix p ":" then
    ("(?P<" ++ strings.tail p ++ ">[\S|^\/]+)")%string
  else p.

(** The text handed to regexp.MustCompile. *)
Definition regexpStr (pathPattern : string) : string :=
  let parts := strings.Split pathPattern "/" in
  let regexpStrParts := map translatePart parts in
  strings.Join regexpStrParts "/".

Definition translatePatternToRegexp (pathPattern : string)
  : outcome regexp.Regexp :=
  regexp.MustCompile (regexpStr pathPattern).

Definition newRoute (pathPattern : string) (handler : Handler)
           (allowedMethods : list string) : outcome route.t :=
  re <- translatePatternToRegexp pathPattern ;;
  Returns (route.mk re handler allowedMethods).

Record handlerRegistry : Type := mkRegistry {
  routes : list route.t
}.

(** The condition of the if statement in getHandler. *)
Definition routeMatches (rt : route.t) (req : Request) : bool :=
  let matches := regexp.FindStringSubmatch (route.Pattern rt) (Path req) in
  Nat.ltb 0 (length matches) && contains (route.Methods rt) (Method req).

(** The loop of getHandler over the routes, in their order. *)
Fixpoint scan (rts : list route.t) (req : Request) (handler : Handler)
  : Handler :=
  match rts with
  | [] => handler
  | rt :: rest =>
      if routeMatches rt req then route.Handler rt
      else scan rest req handler
  end.

(** The methods have a pointer receiver: each returns the registry as it
    leaves it, next to its result. *)
Definition getHandler (rg : handlerRegistry) (req : Request)
  : outcome (Handler * handlerRegistry) :=
  let handler := NoMatchingHandler in
  Returns (scan (routes rg) req handler, rg).

Definition register (rg : handlerRegistry) (path : string) (handler : Handler)
           (allowedMethods : list string) : outcome handlerRegistry :=
  route <- newRoute path handler allowedMethods ;;
  Returns (mkRegistry (routes rg ++ [route])).

(* ================================================================== *)
(** ** Notions used in the statements *)

Import regexp.

(** The handler that a dispatch on [rg] hands to its caller. *)
Definition handlerFor (rg : handlerRegistry) (req : Request) : outcome Handler :=
  res <- getHandler rg req ;;
  Returns (fst res).

(** A call of one of the two methods of the registry. *)
Inductive call : Type :=
| Register (path : string) (handler : Handler) (allowedMethods : list string)
| GetHandler (req : Request).

Definition step (rg : handlerRegistry) (c : call) : outcome handlerRegistry :=
  match c with
  | Register path handler allowedMethods => register rg path handler allowedMethods
  | GetHandler req => res <- getHandler rg req ;; Returns (snd res)
  end.

Fixpoint steps (rg : handlerRegistry) (cs : list call) : outcome handlerRegistry :=
  match cs with
  | [] => Returns rg
  | c :: cs' => rg' <- step rg c ;; steps rg' cs'
  end.

(** The character class of a parameter segment, as parsed:
    non-space, or one of the three characters | ^ / . *)
Definition paramAtom : regexp.atom :=
  regexp.AClass false
    [regexp.ItemPerl regexp.ClassNotSpace;
     regexp.ItemChar "|"; regexp.ItemChar "^"; regexp.ItemChar "/"].

(** A literal character as a node of an expression. *)
Definition litNode (c : ascii) : regex := ROne (ALit c).

(** The expression compiled from a text of literal characters. *)
Definition literalRegexp (lit : string) : Regexp :=
  mkRegexp lit (concat (map litNode (list_ascii_of_string lit))).

(** The group that stands for a parameter segment named [name]. *)
Definition paramNode (idx : nat) (name : string) : regex :=
  RGroup idx name (concat [RPlus paramAtom]).

(** A character that stands for itself in an expression. *)
Definition isLiteralChar (c : ascii) : bool :=
  regexp.isASCII c && negb (regexp.isMeta c).

(** A part of a pattern that the translation turns into an expression
    Go accepts: a colon and a capture name, or literal characters. *)
Definition wellFormedPart (p : string) : bool :=
  if strings.HasPrefix p ":" then regexp.isValidCaptureName (strings.tail p)
  else regexp.allChars isLiteralChar p.

Definition wellFormedPattern (pathPattern : string) : bool :=
  forallb wellFormedPart (strings.Split pathPattern "/").

(** The names that follow a leading colon, in the order of the parts. *)
Definition paramNames (pathPattern : string) : list string :=
  map strings.tail
      (filter (fun p => strings.HasPrefix p ":") (strings.Split pathPattern "/")).

Definition partNames (parts : list string) : list string :=
  map strings.tail (filter (fun p => strings.HasPrefix p ":") parts).

(** strings.Contains(s, substr). *)
Fixpoint Contains (s substr : string) : bool :=
  String.prefix substr s ||
  match s with
  | EmptyString => false
  | String _ s' => Contains s' substr
  end.

(** A handler other than the fallback, for the examples. *)
Definition okHandler (body : string) : Handler :=
  fun _ => (mkResponse 200 body, None).

Definition emptyRegistry : handlerRegistry := mkRegistry [].

(* ================================================================== *)
(** ** Example tables *)

(** The table that holds the single route of pattern /health. *)
Definition healthTable : handlerRegistry :=
  mkRegistry [route.mk (literalRegexp "/health") (okHandler "up") ["GET"]].

(** Three routes of the same pattern and method, registered in the
    order C, A, B. *)
Definition shadowCalls : list call :=
  [Register "/pc1/:name/pc2" (okHandler "C") ["GET"];
   Register "/pc1/:name/pc2" (okHandler "A") ["GET"];
   Register "/pc1/:name/pc2" (okHandler "B") ["GET"]].

Definition routeA : route.t :=
  route.mk (literalRegexp "/a") (okHandler "A") ["GET"].

Definition routeB : route.t :=
  route.mk (literalRegexp "/a") (okHandler "B") ["GET"; "POST"].

Definition routeNone : route.t :=
  route.mk (literalRegexp "/a") (okHandler "N") [].

(* ================================================================== *)
(** ** More notions used in the statements *)

(** A character that is not white space. *)
Definition nonSpace (c : ascii) : bool := negb (isSpace c).

(** The parts of a pattern that do not start with a colon. *)
Definition noParam (parts : list string) : bool :=
  forallb (fun p => negb (strings.HasPrefix p ":")) parts.

(** The nodes of the expression compiled from the parts of a well-formed
    pattern, the groups numbered from [numCap] on. *)
Fixpoint patternNodes (parts : list string) (numCap : nat) : list regex :=
  match parts with
  | [] => []
  | p :: ps =>
      let sep := match ps with [] => [] | _ => [litNode "/"] end in
      if strings.HasPrefix p ":" then
        paramNode (S numCap) (strings.tail p) :: sep ++ patternNodes ps (S numCap)
      else
        map litNode (list_ascii_of_string p) ++ sep ++ patternNodes ps numCap
  end.

(** A segment of a path that fits a part of a pattern: any text without
    white space and not empty for a parameter, the part itself otherwise. *)
Definition instanceOf (part seg : string) : Prop :=
  if strings.HasPrefix part ":" then
    seg <> EmptyString /\ allChars nonSpace seg = true
  else seg = part.

(** The handler and the methods of each route, in the order of the table. *)
Definition bindings (rts : list route.t) : list (Handler * list string) :=
  map (fun rt => (route.Handler rt, route.Methods rt)) rts.

(** The handler and the methods of each call of register, in the order
    of the calls. *)
Fixpoint registrations (cs : list call) : list (Handler * list string) :=
  match cs with
  | [] => []
  | Register _ handler allowedMethods :: cs' =>
      (handler, allowedMethods) :: registrations cs'
  | GetHandler _ :: cs' => registrations cs'
  end.

(** The first route of the table that satisfies the request, with the
    routes before it and after it. *)
Fixpoint firstMatch (rts : list route.t) (req : Request)
  : option (list route.t * route.t * list route.t) :=
  match rts with
  | [] => None
  | rt :: rest =>
      if routeMatches rt req then Some ([], rt, rest)
      else match firstMatch rest req with
           | Some (before, hit, after) => Some (rt :: before, hit, after)
           | None => None
           end
  end.

(** The end of the text, or a white space next: where the class of a
    parameter stops. *)
Definition atBoundary (rest : string) : bool :=
  match rest with
  | EmptyString => true
  | String c _ => isSpace c
  end.

(* ================================================================== *)
(** ** Strings *)

Lemma append_nil_r (s : string) : (s ++ "")%string = s.
Proof. induction s as [|c s IH]; simpl; [reflexivity | now rewrite IH]. Qed.

Lemma append_assoc (a b c : string) :
  ((a ++ b) ++ c)%string = (a ++ b ++ c)%string.
Proof. induction a as [|x a IH]; simpl; [reflexivity | now rewrite IH]. Qed.

Lemma Split_not_nil (s : string) (sep : ascii) : strings.Split s sep <> [].
Proof.
  destruct s as [|c s]; simpl; [discriminate|].
  destruct (Ascii.eqb c sep); [discriminate|].
  destruct (strings.Split s sep); discriminate.
Qed.

(** Joining the parts of a split gives the string back. *)
Lemma Join_Split (s : string) (sep : ascii) :
  strings.Join (strings.Split s sep) (String sep "") = s.
Proof.
  induction s as [|c s IH]; simpl; [reflexivity|].
  destruct (Ascii.eqb_spec c sep) as [->|Hne].
  - pose proof (Split_not_nil s sep) as Hn.
    destruct (strings.Split s sep) as [|p ps]; [contradiction|].
    simpl. simpl in IH. now rewrite IH.
  - pose proof (Split_not_nil s sep) as Hn.
    destruct (strings.Split s sep) as [|p ps]; [contradiction|].
    destruct ps as [|q qs]; simpl in *; now rewrite <- IH.
Qed.

(* ================================================================== *)
(** ** The parser on translated patterns *)

Lemma isMeta_false (c : ascii) :
  isMeta c = false ->
  Ascii.eqb c "(" = false /\ Ascii.eqb c ")" = false /\
  Ascii.eqb c "[" = false /\ Ascii.eqb c "+" = false.
Proof.
  unfold isMeta; simpl. intros H.
  repeat (apply orb_false_iff in H; destruct H as [? H]).
  repeat split; assumption.
Qed.

Lemma parse_literal_char (c : ascii) (t : string) (n : nat)
      (stk : list frame) (cur : list regex) :
  isLiteralChar c = true ->
  parse (String c t) InSeq n stk cur = parse t InSeq n stk (litNode c :: cur).
Proof.
  unfold isLiteralChar. intros H.
  apply andb_true_iff in H. destruct H as [Hascii Hmeta].
  apply negb_true_iff in Hmeta.
  destruct (isMeta_false c Hmeta) as (H1 & H2 & H3 & H4).
  cbn [parse]. rewrite H1, H2, H3, H4, Hmeta, Hascii. reflexivity.
Qed.

Lemma parse_literal (l rest : string) :
  allChars isLiteralChar l = true ->
  forall n stk cur,
    parse (l ++ rest) InSeq n stk cur =
    parse rest InSeq n stk (rev (map litNode (list_ascii_of_string l)) ++ cur).
Proof.
  induction l as [|c l IH]; intros H n stk cur; simpl in H;
    cbn [append list_ascii_of_string map rev].
  - reflexivity.
  - apply andb_true_iff in H. destruct H as [Hc Hl].
    rewrite parse_literal_char by assumption.
    rewrite IH by assumption.
    rewrite <- app_assoc. reflexivity.
Qed.

Lemma isWord_not_gt (c : ascii) : isWord c = true -> Ascii.eqb c ">" = false.
Proof.
  destruct (Ascii.eqb_spec c ">") as [->|]; [discriminate | reflexivity].
Qed.

Lemma parse_name (name rest : string) :
  allChars isWord name = true ->
  forall acc n stk cur,
    parse (name ++ rest) (InName acc) n stk cur =
    parse rest (InName (acc ++ name)) n stk cur.
Proof.
  induction name as [|c name IH]; intros H acc n stk cur; simpl in H;
    cbn [append].
  - now rewrite append_nil_r.
  - apply andb_true_iff in H. destruct H as [Hc Hl].
    cbn [parse]. rewrite (isWord_not_gt c Hc).
    rewrite IH by assumption.
    rewrite append_assoc. reflexivity.
Qed.

Lemma parse_param (name rest : string) (n : nat) (stk : list frame)
      (cur : list regex) :
  isValidCaptureName name = true ->
  parse ("(?P<" ++ name ++ ">[\S|^\/]+)" ++ rest) InSeq n stk cur =
  parse rest InSeq (S n) stk (paramNode (S n) name :: cur).
Proof.
  intros Hv.
  assert (Hw : allChars isWord name = true)
    by (destruct name; [discriminate | exact Hv]).
  cbn [append parse Ascii.eqb Bool.eqb].
  rewrite parse_name by assumption.
  cbn [append]. cbn [parse Ascii.eqb Bool.eqb].
  rewrite Hv.
  reflexivity.
Qed.

Lemma groupNames_concat (rs : list regex) :
  groupNames (concat rs) = flat_map groupNames rs.
Proof.
  induction rs as [|r rs IH]; simpl; [reflexivity | now rewrite IH].
Qed.

Lemma groupNames_literals (l : list ascii) :
  flat_map groupNames (map litNode l) = [].
Proof. induction l as [|c l IH]; simpl; [reflexivity | exact IH]. Qed.

(** One part of a well-formed pattern is read whole, and adds its name
    to the names of the groups if it starts with a colon. *)
Lemma parse_part (p rest : string) (n : nat) (cur : list regex) :
  wellFormedPart p = true ->
  exists n' cur',
    parse (translatePart p ++ rest) InSeq n [] cur = parse rest InSeq n' [] cur' /\
    flat_map groupNames (rev cur') =
    flat_map groupNames (rev cur) ++ partNames [p].
Proof.
  unfold wellFormedPart, translatePart, partNames. cbn [filter].
  destruct (strings.HasPrefix p ":") eqn:Hp; intros Hwf.
  - exists (S n), (paramNode (S n) (strings.tail p) :: cur). split.
    + rewrite !append_assoc. apply (parse_param (strings.tail p) rest n [] cur Hwf).
    + cbn [rev map]. rewrite flat_map_app. reflexivity.
  - exists n, (rev (map litNode (list_ascii_of_string p)) ++ cur). split.
    + apply parse_literal; assumption.
    + rewrite rev_app_distr, rev_involutive, flat_map_app.
      rewrite groupNames_literals. reflexivity.
Qed.

Lemma partNames_cons (p : string) (ps : list string) :
  partNames (p :: ps) = partNames [p] ++ partNames ps.
Proof.
  unfold partNames. cbn [filter].
  destruct (strings.HasPrefix p ":"); reflexivity.
Qed.

Lemma parse_parts (parts : list string) :
  forallb wellFormedPart parts = true ->
  forall n cur,
  exists cur',
    parse (strings.Join (map translatePart parts) "/") InSeq n [] cur =
      Returns (concat (rev cur')) /\
    flat_map groupNames (rev cur') =
    flat_map groupNames (rev cur) ++ partNames parts.
Proof.
  induction parts as [|p ps IH]; intros Hwf n cur.
  - exists cur. split; [reflexivity | now rewrite app_nil_r].
  - cbn [forallb] in Hwf. apply andb_true_iff in Hwf. destruct Hwf as [Hp Hps].
    destruct ps as [|q qs].
    + destruct (parse_part p "" n cur Hp) as (n' & cur' & Hrun & Hnames).
      exists cur'. split; [|exact Hnames].
      cbn [map strings.Join]. rewrite <- (append_nil_r (translatePart p)).
      exact Hrun.
    + destruct (parse_part p ("/" ++ strings.Join (map translatePart (q :: qs)) "/")
                           n cur Hp) as (n' & cur' & Hrun & Hnames).
      destruct (IH Hps n' (litNode "/" :: cur')) as (cur'' & Hrun' & Hnames').
      exists cur''. split.
      * change (strings.Join (map translatePart (p :: q :: qs)) "/")
          with (translatePart p ++ "/" ++
                strings.Join (map translatePart (q :: qs)) "/")%string.
        rewrite Hrun. cbn [append].
        rewrite parse_literal_char by reflexivity. exact Hrun'.
      * rewrite Hnames'. cbn [rev]. rewrite flat_map_app. cbn [flat_map litNode groupNames].
        rewrite !app_nil_r, Hnames, <- app_assoc.
        now rewrite (partNames_cons p (q :: qs)).
Qed.

(** A well-formed pattern compiles, and the names of its groups are the
    names that follow a leading colon. *)
Lemma wellFormed_compiles (pathPattern : string) :
  wellFormedPattern pathPattern = true ->
  exists re,
    translatePatternToRegexp pathPattern = Returns re /\
    expr re = regexpStr pathPattern /\
    SubexpNames re = EmptyString :: paramNames pathPattern.
Proof.
  intros Hwf.
  destruct (parse_parts (strings.Split pathPattern "/") Hwf 0 [])
    as (cur' & Hrun & Hnames).
  exists (mkRegexp (regexpStr pathPattern) (concat (rev cur'))).
  split; [|split].
  - unfold translatePatternToRegexp, MustCompile, regexpStr.
    rewrite Hrun. reflexivity.
  - reflexivity.
  - unfold SubexpNames. cbn [tree]. rewrite groupNames_concat, Hnames. reflexivity.
Qed.

(* ================================================================== *)
(** ** Matching a literal expression *)

Lemma prefix_cons (c d : ascii) (l s : string) :
  String.prefix (String c l) (String d s) = Ascii.eqb c d && String.prefix l s.
Proof.
  cbn [String.prefix].
  destruct (ascii_dec c d) as [->|Hne].
  - now rewrite Ascii.eqb_refl.
  - apply Ascii.eqb_neq in Hne. now rewrite Hne.
Qed.

Lemma prefix_nil (s : string) : String.prefix "" s = true.
Proof. destruct s; reflexivity. Qed.

(** A concatenation of literals matches at the front of [s] exactly when
    the literal text is a prefix of [s]. *)
Lemma run_literals (lit : string) :
  forall s pos caps,
    run (concat (map litNode (list_ascii_of_string lit))) s pos caps accept =
    if String.prefix lit s then Some (pos + String.length lit, caps) else None.
Proof.
  induction lit as [|c lit IH]; intros s pos caps.
  - rewrite prefix_nil. cbn. now rewrite Nat.add_0_r.
  - cbn [list_ascii_of_string map concat fold_right run litNode].
    destruct s as [|d s]; [reflexivity|].
    rewrite prefix_cons. cbn [atomMatches].
    destruct (Ascii.eqb c d); cbn [andb]; [|reflexivity].
    fold (concat (map litNode (list_ascii_of_string lit))).
    rewrite IH. cbn [String.length]. now rewrite Nat.add_succ_r.
Qed.

(** The unanchored search for a literal text is a substring test. *)
Lemma search_literals (lit : string) :
  forall s pos,
    match search (concat (map litNode (list_ascii_of_string lit))) s pos with
    | Some _ => true
    | None => false
    end = Contains s lit.
Proof.
  induction s as [|d s IH]; intros pos.
  - cbn [search Contains]. rewrite run_literals.
    destruct (String.prefix lit ""); reflexivity.
  - cbn [search Contains]. rewrite run_literals.
    destruct (String.prefix lit (String d s)); [reflexivity|].
    cbn [orb]. apply IH.
Qed.

Lemma FindStringSubmatch_literals (lit s : string) :
  Nat.ltb 0 (List.length (FindStringSubmatch (literalRegexp lit) s))
  = Contains s lit.
Proof.
  unfold FindStringSubmatch, literalRegexp. cbn [tree].
  rewrite <- (search_literals lit s 0).
  destruct (search _ s 0) as [[b [e caps]]|]; reflexivity.
Qed.

Lemma prefix_iff (sub s : string) :
  String.prefix sub s = true <-> exists post, s = (sub ++ post)%string.
Proof.
  revert s. induction sub as [|c sub IH]; intros s.
  - rewrite prefix_nil. split; [intros _; now exists s | reflexivity].
  - destruct s as [|d s].
    + split; [discriminate | intros [post H]; discriminate].
    + rewrite prefix_cons, andb_true_iff, IH. split.
      * intros [Hc [post ->]]. apply Ascii.eqb_eq in Hc. subst. now exists post.
      * intros [post H]. cbn [append] in H. injection H as -> ->.
        split; [apply Ascii.eqb_refl | now exists post].
Qed.

(** [Contains s substr] holds exactly when [substr] occurs in [s]. *)
Lemma Contains_iff (s substr : string) :
  Contains s substr = true <->
  exists pre post, s = (pre ++ substr ++ post)%string.
Proof.
  induction s as [|d s IH]; cbn [Contains]; rewrite orb_true_iff, prefix_iff.
  - split.
    + intros [[post H]|H]; [|discriminate]. now exists "", post.
    + intros [pre [post H]]. left.
      destruct pre; [now exists post | discriminate].
  - rewrite IH. split.
    + intros [[post H]|[pre [post H]]].
      * now exists "", post.
      * exists (String d pre), post. cbn [append]. now rewrite H.
    + intros [pre [post H]]. destruct pre as [|c pre].
      * left. now exists post.
      * right. cbn [append] in H. injection H as _ H. now exists pre, post.
Qed.

(* ================================================================== *)
(** ** The dispatch loop *)

Lemma okHandler_not_fallback (body : string) : okHandler body <> NoMatchingHandler.
Proof.
  intros H.
  apply (f_equal (fun h : Handler => StatusCode (fst (h (mkRequest "" "" []))))) in H.
  discriminate H.
Qed.

Lemma okHandler_inj (a b : string) : okHandler a = okHandler b -> a = b.
Proof.
  intros H.
  apply (f_equal (fun h : Handler => Body (fst (h (mkRequest "" "" []))))) in H.
  exact H.
Qed.

(** Routes that do not satisfy the condition are passed over. *)
Lemma scan_skip (before after : list route.t) (req : Request) (h0 : Handler) :
  (forall rt, In rt before -> routeMatches rt req = false) ->
  scan (before ++ after) req h0 = scan after req h0.
Proof.
  induction before as [|rt before IH]; intros Hno; cbn [app scan].
  - reflexivity.
  - rewrite (Hno rt (or_introl eq_refl)).
    apply IH. intros rt' Hin. apply Hno. now right.
Qed.

Lemma scan_none (rts : list route.t) (req : Request) (h0 : Handler) :
  (forall rt, In rt rts -> routeMatches rt req = false) ->
  scan rts req h0 = h0.
Proof.
  intros Hno. rewrite <- (app_nil_r rts). now rewrite scan_skip.
Qed.

(** A route that does not satisfy the condition can be taken out of the
    table without changing the handler found. *)
Lemma scan_remove (before after : list route.t) (rt : route.t) (req : Request)
      (h0 : Handler) :
  routeMatches rt req = false ->
  scan (before ++ rt :: after) req h0 = scan (before ++ after) req h0.
Proof.
  intros Hrt. induction before as [|r before IH]; cbn [app scan].
  - now rewrite Hrt.
  - now rewrite IH.
Qed.

(** The handler found is the fallback or the handler of a route. *)
Lemma scan_result (rts : list route.t) (req : Request) (h0 : Handler) :
  scan rts req h0 = h0 \/
  exists rt, In rt rts /\ routeMatches rt req = true /\
             scan rts req h0 = route.Handler rt.
Proof.
  induction rts as [|r rts IH]; cbn [scan].
  - now left.
  - destruct (routeMatches r req) eqn:Hr.
    + right. exists r. repeat split; [now left | assumption].
    + destruct IH as [IH|(rt & Hin & Hm & Heq)]; [now left|].
      right. exists rt. repeat split; [now right | assumption | assumption].
Qed.

(** The condition reads the path and the method of the request only. *)
Lemma routeMatches_ext (rt : route.t) (req1 req2 : Request) :
  Path req1 = Path req2 -> Method req1 = Method req2 ->
  routeMatches rt req1 = routeMatches rt req2.
Proof. unfold routeMatches. now intros -> ->. Qed.

Lemma scan_ext (rts : list route.t) (req1 req2 : Request) (h0 : Handler) :
  Path req1 = Path req2 -> Method req1 = Method req2 ->
  scan rts req1 h0 = scan rts req2 h0.
Proof.
  intros Hp Hm. induction rts as [|r rts IH]; cbn [scan]; [reflexivity|].
  now rewrite (routeMatches_ext r req1 req2 Hp Hm), IH.
Qed.

Lemma routeMatches_no_method (rt : route.t) (req : Request) :
  contains (route.Methods rt) (Method req) = false ->
  routeMatches rt req = false.
Proof. unfold routeMatches. intros ->. apply andb_false_r. Qed.

(** No call takes a route out of the table or changes one. *)
Lemma step_extends (rg rg' : handlerRegistry) (c : call) :
  step rg c = Returns rg' -> exists more, routes rg' = routes rg ++ more.
Proof.
  destruct c as [path h ms|req]; cbn [step].
  - unfold register, newRoute.
    destruct (translatePatternToRegexp path) as [re| |]; cbn [bind];
      try discriminate.
    intros H. injection H as <-. cbn [routes]. eauto.
  - unfold getHandler. cbn [bind snd]. intros H. injection H as <-.
    exists []. now rewrite app_nil_r.
Qed.

Lemma steps_extend (cs : list call) :
  forall rg rg',
    steps rg cs = Returns rg' -> exists more, routes rg' = routes rg ++ more.
Proof.
  induction cs as [|c cs IH]; intros rg rg'; cbn [steps].
  - intros H. injection H as <-. exists []. now rewrite app_nil_r.
  - destruct (step rg c) as [rg1| |] eqn:Hstep; cbn [bind]; try discriminate.
    intros H. destruct (step_extends _ _ _ Hstep) as [m1 H1].
    destruct (IH _ _ H) as [m2 H2].
    exists (m1 ++ m2). now rewrite H2, H1, app_assoc.
Qed.

(** The class of a parameter segment takes every character that is not
    white space, the slash among them. *)
Lemma paramAtom_matches (c : ascii) :
  atomMatches paramAtom c = negb (isSpace c).
Proof.
  destruct c as [[] [] [] [] [] [] [] []]; reflexivity.
Qed.

(* ================================================================== *)
(** ** Properties of the registry *)

(** C1, as stated, fails: the route of pattern /health is selected for
    the paths /healthcheck and /health/ as well, and its handler is not
    the fallback. *)
Lemma health_route_not_anchored :
  (rg <- register emptyRegistry "/health" (okHandler "up") ["GET"] ;;
   handlerFor rg (mkRequest "GET" "/healthcheck" [])) = Returns (okHandler "up") /\
  (rg <- register emptyRegistry "/health" (okHandler "up") ["GET"] ;;
   handlerFor rg (mkRequest "GET" "/health/" [])) = Returns (okHandler "up") /\
  okHandler "up" <> NoMatchingHandler.
Proof.
  split; [reflexivity | split; [reflexivity | apply okHandler_not_fallback]].
Qed.

(** C1, amended: in the table that holds only the route of pattern
    /health, a request with an allowed method gets the route's handler
    exactly when its path contains /health somewhere (so for /health,
    /health/ and /healthcheck), and the fallback otherwise. *)
Theorem health_route_matches_substring :
  forall (h : Handler) (ms : list string) (req : Request) (rg : handlerRegistry),
    register emptyRegistry "/health" h ms = Returns rg ->
    contains ms (Method req) = true ->
    getHandler rg req =
    Returns (if Contains (Path req) "/health" then h else NoMatchingHandler, rg).
Proof.
  intros h ms req rg Hreg Hm.
  change (register emptyRegistry "/health" h ms)
    with (Returns (mkRegistry [route.mk (literalRegexp "/health") h ms])) in Hreg.
  injection Hreg as <-.
  unfold getHandler. cbn [routes scan].
  unfold routeMatches. cbn [route.Pattern route.Methods route.Handler].
  rewrite FindStringSubmatch_literals, Hm, andb_true_r. reflexivity.
Qed.

Lemma health_route_matches_substring_witness :
  register emptyRegistry "/health" (okHandler "up") ["GET"] = Returns healthTable /\
  contains ["GET"] (Method (mkRequest "GET" "/healthcheck" [])) = true /\
  getHandler healthTable (mkRequest "GET" "/healthcheck" []) =
  Returns (okHandler "up", healthTable) /\
  getHandler healthTable (mkRequest "GET" "/healt" []) =
  Returns (NoMatchingHandler, healthTable).
Proof.
  split; [reflexivity | split; [reflexivity | split]].
  - apply (health_route_matches_substring (okHandler "up") ["GET"]
             (mkRequest "GET" "/healthcheck" []) healthTable); reflexivity.
  - apply (health_route_matches_substring (okHandler "up") ["GET"]
             (mkRequest "GET" "/healt" []) healthTable); reflexivity.
Defined.

(** C2: the matcher compiled from /users/:id/items has one group, named
    id; on /users/42/items it matches with id = 42; on /users/42/43/items
    it matches too, with id = 42/43, because the class of the group takes
    the slash: it takes every character that is not white space. *)
Theorem param_segment_spans_slash :
  (re <- translatePatternToRegexp "/users/:id/items" ;;
   Returns (expr re, SubexpNames re,
            FindStringSubmatch re "/users/42/items",
            FindStringSubmatch re "/users/42/43/items"))
  = Returns ("/users/(?P<id>[\S|^\/]+)/items", [""; "id"],
             ["/users/42/items"; "42"],
             ["/users/42/43/items"; "42/43"])
  /\ atomMatches paramAtom "/" = true
  /\ (forall c : ascii, atomMatches paramAtom c = negb (isSpace c)).
Proof. split; [reflexivity | split; [reflexivity | apply paramAtom_matches]]. Qed.

(** C3, as stated, fails: a parameter segment whose name has a hyphen,
    and one whose name is empty, make regexp.MustCompile panic, and the
    registration with it. *)
Lemma malformed_pattern_panics :
  translatePatternToRegexp "/users/:user-id" = Panics /\
  translatePatternToRegexp "/users/:" = Panics /\
  register emptyRegistry "/users/:user-id" NoMatchingHandler ["GET"] = Panics.
Proof. repeat split. Qed.

(** C3, amended: compilation returns for every pattern whose parameter
    segments are a colon and a name of letters, digits and underscores,
    and whose other segments are made of ASCII characters without a
    meaning in regular expressions; a name may be used more than once;
    registration with such a pattern returns, with the route appended. *)
Theorem wellformed_pattern_compiles :
  forall pathPattern : string,
    wellFormedPattern pathPattern = true ->
    exists re,
      translatePatternToRegexp pathPattern = Returns re /\
      forall rg handler allowedMethods,
        register rg pathPattern handler allowedMethods =
        Returns (mkRegistry (routes rg ++ [route.mk re handler allowedMethods])).
Proof.
  intros pathPattern Hwf.
  destruct (wellFormed_compiles pathPattern Hwf) as (re & Hre & _ & _).
  exists re. split; [exact Hre|].
  intros rg handler allowedMethods.
  unfold register, newRoute. rewrite Hre. reflexivity.
Qed.

Lemma wellformed_pattern_compiles_witness :
  wellFormedPattern "/users/:id/friends/:id" = true /\
  exists re,
    translatePatternToRegexp "/users/:id/friends/:id" = Returns re /\
    forall rg handler allowedMethods,
      register rg "/users/:id/friends/:id" handler allowedMethods =
      Returns (mkRegistry (routes rg ++ [route.mk re handler allowedMethods])).
Proof.
  split; [reflexivity|].
  apply (wellformed_pattern_compiles "/users/:id/friends/:id"). reflexivity.
Defined.

(** C4, as stated, fails: with the routes C, A and B registered in this
    order, all three satisfied by the request, dispatch returns the
    handler of C, which is not the handler of A. *)
Lemma earlier_route_shadows_A :
  (rg <- steps emptyRegistry shadowCalls ;;
   Returns (map (fun rt => routeMatches rt (mkRequest "GET" "/pc1/hello/pc2" []))
                (routes rg))) = Returns [true; true; true] /\
  (rg <- steps emptyRegistry shadowCalls ;;
   handlerFor rg (mkRequest "GET" "/pc1/hello/pc2" [])) = Returns (okHandler "C") /\
  okHandler "C" <> okHandler "A".
Proof.
  split; [reflexivity | split; [reflexivity|]].
  intros H. apply okHandler_inj in H. discriminate H.
Qed.

(** C4, amended: when route A is registered before route B, the request
    satisfies both (path accepted, method allowed), and no route
    registered before A is satisfied by the request, dispatch returns the
    handler of A. *)
Theorem first_match_wins :
  forall (before between after : list route.t) (A B : route.t) (req : Request),
    (forall rt, In rt before -> routeMatches rt req = false) ->
    routeMatches A req = true ->
    routeMatches B req = true ->
    getHandler (mkRegistry (before ++ A :: between ++ B :: after)) req =
    Returns (route.Handler A,
             mkRegistry (before ++ A :: between ++ B :: after)).
Proof.
  intros before between after A B req Hbefore HA _.
  unfold getHandler. cbn [routes].
  rewrite scan_skip by assumption.
  cbn [scan]. now rewrite HA.
Qed.

Lemma first_match_wins_witness :
  (forall rt, In rt [routeNone] ->
              routeMatches rt (mkRequest "GET" "/a" []) = false) /\
  routeMatches routeA (mkRequest "GET" "/a" []) = true /\
  routeMatches routeB (mkRequest "GET" "/a" []) = true /\
  getHandler (mkRegistry ([routeNone] ++ routeA :: [] ++ routeB :: []))
             (mkRequest "GET" "/a" []) =
  Returns (route.Handler routeA,
           mkRegistry ([routeNone] ++ routeA :: [] ++ routeB :: [])).
Proof.
  assert (Hbefore : forall rt, In rt [routeNone] ->
                      routeMatches rt (mkRequest "GET" "/a" []) = false).
  { intros rt [<-|[]]. reflexivity. }
  split; [exact Hbefore | split; [reflexivity | split; [reflexivity|]]].
  apply (first_match_wins [routeNone] [] [] routeA routeB
                          (mkRequest "GET" "/a" []) Hbefore); reflexivity.
Defined.

(** C5: a route whose allowed methods are GET alone is passed over for a
    request of any other method (POST, or get in lower case), whatever
    its path: the handler found is the one found without that route, and
    it is the fallback when no other route is satisfied. *)
Theorem get_route_skipped_for_other_method :
  forall (before after : list route.t) (rt : route.t) (req : Request),
    route.Methods rt = ["GET"] ->
    Method req <> "GET" ->
    routeMatches rt req = false /\
    handlerFor (mkRegistry (before ++ rt :: after)) req =
    handlerFor (mkRegistry (before ++ after)) req /\
    ((forall r, In r (before ++ after) -> routeMatches r req = false) ->
     handlerFor (mkRegistry (before ++ rt :: after)) req =
     Returns NoMatchingHandler).
Proof.
  intros before after rt req Hms Hm.
  assert (Hrt : routeMatches rt req = false).
  { apply routeMatches_no_method. rewrite Hms. cbn [contains existsb].
    apply String.eqb_neq in Hm. now rewrite Hm. }
  split; [exact Hrt|].
  unfold handlerFor, getHandler. cbn [bind fst routes].
  rewrite (scan_remove before after rt req NoMatchingHandler Hrt).
  split; [reflexivity|].
  intros Hno. now rewrite scan_none.
Qed.

Lemma get_route_skipped_for_other_method_witness :
  route.Methods routeA = ["GET"] /\
  Method (mkRequest "POST" "/a" []) <> "GET" /\
  routeMatches routeA (mkRequest "POST" "/a" []) = false /\
  handlerFor (mkRegistry ([] ++ routeA :: [routeB])) (mkRequest "POST" "/a" []) =
  handlerFor (mkRegistry ([] ++ [routeB])) (mkRequest "POST" "/a" []) /\
  ((forall r, In r ([] ++ [routeB]) ->
              routeMatches r (mkRequest "POST" "/a" []) = false) ->
   handlerFor (mkRegistry ([] ++ routeA :: [routeB])) (mkRequest "POST" "/a" []) =
   Returns NoMatchingHandler).
Proof.
  split; [reflexivity | split; [discriminate|]].
  apply (get_route_skipped_for_other_method [] [routeB] routeA
           (mkRequest "POST" "/a" [])); [reflexivity | discriminate].
Defined.

(** C6: dispatch returns for every table and request, with the fallback
    or the handler of a route of the table; on the empty table it returns
    the fallback; the fallback answers every request with the status 404,
    a body that is not empty, and no error. *)
Theorem dispatch_never_fails :
  forall (rg : handlerRegistry) (req : Request),
    (exists h,
        getHandler rg req = Returns (h, rg) /\
        (h = NoMatchingHandler \/
         exists rt, In rt (routes rg) /\ h = route.Handler rt)) /\
    getHandler emptyRegistry req = Returns (NoMatchingHandler, emptyRegistry) /\
    (forall re : Request,
        NoMatchingHandler re =
        (mkResponse StatusNotFound "The requested path is not found.", None) /\
        StatusCode (fst (NoMatchingHandler re)) = 404%Z /\
        Body (fst (NoMatchingHandler re)) <> EmptyString /\
        snd (NoMatchingHandler re) = None).
Proof.
  intros rg req. split; [|split].
  - exists (scan (routes rg) req NoMatchingHandler). split; [reflexivity|].
    destruct (scan_result (routes rg) req NoMatchingHandler)
      as [H|(rt & Hin & _ & H)]; [now left | right; eauto].
  - reflexivity.
  - intros re. repeat split. discriminate.
Qed.

(** C7: two requests with the same path and the same method get the same
    handler from a given table, and the dispatch returns the table as it
    received it. *)
Theorem dispatch_deterministic :
  forall (rg : handlerRegistry) (req1 req2 : Request),
    Path req1 = Path req2 ->
    Method req1 = Method req2 ->
    exists h,
      getHandler rg req1 = Returns (h, rg) /\
      getHandler rg req2 = Returns (h, rg).
Proof.
  intros rg req1 req2 Hp Hm.
  exists (scan (routes rg) req1 NoMatchingHandler). split; [reflexivity|].
  unfold getHandler. now rewrite (scan_ext (routes rg) req1 req2 _ Hp Hm).
Qed.

Lemma dispatch_deterministic_witness :
  Path (mkRequest "GET" "/health" []) =
  Path (mkRequest "GET" "/health" [("id", "7")]) /\
  Method (mkRequest "GET" "/health" []) =
  Method (mkRequest "GET" "/health" [("id", "7")]) /\
  exists h,
    getHandler healthTable (mkRequest "GET" "/health" []) =
    Returns (h, healthTable) /\
    getHandler healthTable (mkRequest "GET" "/health" [("id", "7")]) =
    Returns (h, healthTable).
Proof.
  split; [reflexivity | split; [reflexivity|]].
  apply (dispatch_deterministic healthTable); reflexivity.
Defined.

(** C8: a registration whose pattern compiles returns the table with one
    route appended, made of the compiled matcher, the given handler and
    the given methods; the routes registered before stay as they were and
    where they were, and so do they and the new route after any further
    calls of register and getHandler. *)
Theorem register_appends_one_route :
  forall (rg rg' : handlerRegistry) (path : string) (handler : Handler)
         (allowedMethods : list string) (re : Regexp) (calls : list call),
    translatePatternToRegexp path = Returns re ->
    steps (mkRegistry (routes rg ++ [route.mk re handler allowedMethods])) calls
      = Returns rg' ->
    register rg path handler allowedMethods =
      Returns (mkRegistry (routes rg ++ [route.mk re handler allowedMethods])) /\
    exists more,
      routes rg' = routes rg ++ route.mk re handler allowedMethods :: more.
Proof.
  intros rg rg' path handler allowedMethods re calls Hre Hsteps. split.
  - unfold register, newRoute. rewrite Hre. reflexivity.
  - destruct (steps_extend calls _ _ Hsteps) as [more Hmore].
    exists more. rewrite Hmore. cbn [routes]. now rewrite <- app_assoc.
Qed.

Lemma register_appends_one_route_witness :
  translatePatternToRegexp "/health" = Returns (literalRegexp "/health") /\
  steps (mkRegistry (routes (mkRegistry [routeA]) ++
                     [route.mk (literalRegexp "/health") (okHandler "up") ["GET"]]))
        [GetHandler (mkRequest "GET" "/a" []);
         Register "/a" (okHandler "B") ["GET"; "POST"]]
    = Returns (mkRegistry [routeA;
                           route.mk (literalRegexp "/health") (okHandler "up") ["GET"];
                           routeB]) /\
  register (mkRegistry [routeA]) "/health" (okHandler "up") ["GET"] =
    Returns (mkRegistry (routes (mkRegistry [routeA]) ++
                         [route.mk (literalRegexp "/health") (okHandler "up") ["GET"]])) /\
  exists more,
    routes (mkRegistry [routeA;
                        route.mk (literalRegexp "/health") (okHandler "up") ["GET"];
                        routeB]) =
    routes (mkRegistry [routeA]) ++
    route.mk (literalRegexp "/health") (okHandler "up") ["GET"] :: more.
Proof.
  split; [reflexivity | split; [reflexivity|]].
  apply (register_appends_one_route (mkRegistry [routeA]) _ "/health"
           (okHandler "up") ["GET"] (literalRegexp "/health")
           [GetHandler (mkRequest "GET" "/a" []);
            Register "/a" (okHandler "B") ["GET"; "POST"]]); reflexivity.
Defined.

(** C9: a route with no allowed method is never the one selected: for
    every request its condition is false, and the handler found is the
    one found without that route. *)
Theorem route_without_methods_unreachable :
  forall (before after : list route.t) (rt : route.t) (req : Request),
    route.Methods rt = [] ->
    routeMatches rt req = false /\
    handlerFor (mkRegistry (before ++ rt :: after)) req =
    handlerFor (mkRegistry (before ++ after)) req.
Proof.
  intros before after rt req Hms.
  assert (Hrt : routeMatches rt req = false).
  { apply routeMatches_no_method. now rewrite Hms. }
  split; [exact Hrt|].
  unfold handlerFor, getHandler. cbn [bind fst routes].
  now rewrite (scan_remove before after rt req NoMatchingHandler Hrt).
Qed.

Lemma route_without_methods_unreachable_witness :
  route.Methods routeNone = [] /\
  routeMatches routeNone (mkRequest "GET" "/a" []) = false /\
  handlerFor (mkRegistry ([] ++ routeNone :: [routeA])) (mkRequest "GET" "/a" []) =
  handlerFor (mkRegistry ([] ++ [routeA])) (mkRequest "GET" "/a" []).
Proof.
  split; [reflexivity|].
  apply (route_without_methods_unreachable [] [routeA] routeNone
           (mkRequest "GET" "/a" [])); reflexivity.
Defined.

(** C10, as stated, fails: the segment a:(?P<n>b) has its colon after
    the first character and is handed to the compiler as it is, yet the
    compiled matcher has the named group n for it, which captures b on
    the path /a:b. *)
Lemma colon_segment_with_group_captures :
  strings.HasPrefix "a:(?P<n>b)" ":" = false /\
  translatePart "a:(?P<n>b)" = "a:(?P<n>b)" /\
  (re <- translatePatternToRegexp "/a:(?P<n>b)" ;;
   Returns (expr re, SubexpNames re, FindStringSubmatch re "/a:b"))
  = Returns ("/a:(?P<n>b)", [""; "n"], ["/a:b"; "b"]).
Proof. repeat split. Qed.

(** C10, amended: a part that does not start with a colon is handed to
    the compiler as it is, wherever else it has a colon; in a pattern
    whose parts are a colon and a capture name, or made of ASCII
    characters without a meaning in regular expressions (as foo:bar), the
    named groups of the compiled matcher are those of the parts with a
    leading colon and no others, so such a part gives no parameter; when
    no part starts with a colon the compiled text is the pattern. *)
Theorem colon_inside_segment_is_literal :
  forall pathPattern : string,
    wellFormedPattern pathPattern = true ->
    (forall p, strings.HasPrefix p ":" = false -> translatePart p = p) /\
    exists re,
      translatePatternToRegexp pathPattern = Returns re /\
      SubexpNames re = EmptyString :: paramNames pathPattern /\
      (paramNames pathPattern = [] -> expr re = pathPattern).
Proof.
  intros pathPattern Hwf. split.
  - intros p Hp. unfold translatePart. now rewrite Hp.
  - destruct (wellFormed_compiles pathPattern Hwf) as (re & Hre & Hexpr & Hnames).
    exists re. split; [exact Hre | split; [exact Hnames|]].
    intros Hnone. rewrite Hexpr. unfold regexpStr.
    rewrite <- (Join_Split pathPattern "/") at 2. f_equal.
    unfold paramNames in Hnone. apply map_eq_nil in Hnone.
    clear -Hnone. induction (strings.Split pathPattern "/") as [|p ps IH];
      [reflexivity|].
    cbn [filter] in Hnone. cbn [map].
    destruct (strings.HasPrefix p ":") eqn:Hp; [discriminate|].
    unfold translatePart at 1. rewrite Hp. now rewrite IH.
Qed.

Lemma colon_inside_segment_is_literal_witness :
  (wellFormedPattern "/foo:bar/:id" = true /\
   (forall p, strings.HasPrefix p ":" = false -> translatePart p = p) /\
   exists re,
     translatePatternToRegexp "/foo:bar/:id" = Returns re /\
     SubexpNames re = EmptyString :: ["id"] /\
     (paramNames "/foo:bar/:id" = [] -> expr re = "/foo:bar/:id")) /\
  (wellFormedPattern "/foo:bar" = true /\
   paramNames "/foo:bar" = [] /\
   exists re,
     translatePatternToRegexp "/foo:bar" = Returns re /\
     SubexpNames re = [EmptyString] /\
     expr re = "/foo:bar").
Proof.
  split.
  - split; [reflexivity|].
    apply (colon_inside_segment_is_literal "/foo:bar/:id"). reflexivity.
  - split; [reflexivity | split; [reflexivity|]].
    destruct (colon_inside_segment_is_literal "/foo:bar" eq_refl)
      as (_ & re & Hre & Hnames & Hexpr).
    exists re. split; [exact Hre | split; [exact Hnames | exact (Hexpr eq_refl)]].
Defined.

(* ================================================================== *)
(** ** More on the dispatch loop *)

Lemma scan_app (l1 l2 : list route.t) (req : Request) (h0 : Handler) :
  scan (l1 ++ l2) req h0 =
  if existsb (fun r => routeMatches r req) l1 then scan l1 req h0
  else scan l2 req h0.
Proof.
  induction l1 as [|r l1 IH]; cbn [app scan existsb]; [reflexivity|].
  destruct (routeMatches r req); cbn [orb]; [reflexivity | exact IH].
Qed.

Lemma existsb_false_all (l : list route.t) (req : Request) :
  existsb (fun r => routeMatches r req) l = false ->
  forall r, In r l -> routeMatches r req = false.
Proof.
  intros H r Hin.
  destruct (routeMatches r req) eqn:Hr; [|reflexivity].
  rewrite <- H. symmetry. apply existsb_exists. eauto.
Qed.

(** The table after a registration that returns. *)
Lemma register_returns (rg rg' : handlerRegistry) (path : string)
      (h : Handler) (ms : list string) :
  register rg path h ms = Returns rg' ->
  exists re,
    translatePatternToRegexp path = Returns re /\
    routes rg' = routes rg ++ [route.mk re h ms].
Proof.
  unfold register, newRoute.
  destruct (translatePatternToRegexp path) as [re| |]; cbn [bind];
    try discriminate.
  intros H. injection H as <-. exists re. split; reflexivity.
Qed.

(** A route is never selected when every request it satisfies is also
    satisfied by a route registered before it. *)
Lemma scan_shadowed (before between after : list route.t) (r1 r2 : route.t)
      (req : Request) (h0 : Handler) :
  (routeMatches r2 req = true -> routeMatches r1 req = true) ->
  scan (before ++ r1 :: between ++ r2 :: after) req h0 =
  scan (before ++ r1 :: between ++ after) req h0.
Proof.
  intros Himp.
  rewrite !(scan_app before).
  destruct (existsb (fun r => routeMatches r req) before); [reflexivity|].
  cbn [scan].
  destruct (routeMatches r1 req) eqn:H1; [reflexivity|].
  destruct (routeMatches r2 req) eqn:H2.
  - specialize (Himp eq_refl). discriminate Himp.
  - now apply scan_remove.
Qed.

(** X1: getHandler returns the handler of the first route, in the order
    of the table, whose matcher accepts the path and whose methods hold
    the method of the request; it returns the fallback when no route
    does. *)
Theorem getHandler_first_satisfied_route :
  forall (rg : handlerRegistry) (req : Request),
    (exists before rt after,
        routes rg = before ++ rt :: after /\
        (forall r, In r before -> routeMatches r req = false) /\
        routeMatches rt req = true /\
        getHandler rg req = Returns (route.Handler rt, rg)) \/
    ((forall r, In r (routes rg) -> routeMatches r req = false) /\
     getHandler rg req = Returns (NoMatchingHandler, rg)).
Proof.
  intros [rts] req. unfold getHandler. cbn [routes].
  induction rts as [|r rts IH].
  - right. split; [intros r [] | reflexivity].
  - destruct (routeMatches r req) eqn:Hr.
    + left. exists [], r, rts. cbn [app scan]. rewrite Hr.
      repeat split. intros r0 [].
    + destruct IH as [(before & rt & after & Heq & Hno & Hrt & Hget)|[Hno Hget]].
      * left. exists (r :: before), rt, after. cbn [app scan]. rewrite Hr.
        repeat split.
        -- now rewrite Heq.
        -- intros r0 [<-|Hin]; [exact Hr | now apply Hno].
        -- exact Hrt.
        -- injection Hget as Hget. now rewrite Hget.
      * right. cbn [scan]. rewrite Hr. split.
        -- intros r0 [<-|Hin]; [exact Hr | now apply Hno].
        -- injection Hget as Hget. now rewrite Hget.
Qed.

(** X2: a route that has just been registered is consulted only when no
    route registered before it is satisfied by the request: a request
    that was routed keeps its handler, any other request gets the new
    handler if the new route is satisfied and the fallback if not. *)
Theorem register_then_getHandler :
  forall (rg rg' : handlerRegistry) (path : string) (handler : Handler)
         (allowedMethods : list string) (req : Request),
    register rg path handler allowedMethods = Returns rg' ->
    exists rt,
      routes rg' = routes rg ++ [rt] /\
      route.Handler rt = handler /\
      route.Methods rt = allowedMethods /\
      handlerFor rg' req =
      if existsb (fun r => routeMatches r req) (routes rg) then handlerFor rg req
      else if routeMatches rt req then Returns handler
           else Returns NoMatchingHandler.
Proof.
  intros rg rg' path handler allowedMethods req Hreg.
  destruct (register_returns _ _ _ _ _ Hreg) as (re & _ & Hroutes).
  exists (route.mk re handler allowedMethods).
  split; [exact Hroutes | split; [reflexivity | split; [reflexivity|]]].
  unfold handlerFor, getHandler. cbn [bind fst]. rewrite Hroutes, scan_app.
  destruct (existsb (fun r => routeMatches r req) (routes rg)); [reflexivity|].
  cbn [scan route.Handler].
  destruct (routeMatches (route.mk re handler allowedMethods) req); reflexivity.
Qed.

Lemma register_then_getHandler_witness :
  register (mkRegistry [routeA]) "/health" (okHandler "up") ["GET"] =
    Returns (mkRegistry [routeA;
                         route.mk (literalRegexp "/health") (okHandler "up") ["GET"]]) /\
  exists rt,
    routes (mkRegistry [routeA;
                        route.mk (literalRegexp "/health") (okHandler "up") ["GET"]]) =
      routes (mkRegistry [routeA]) ++ [rt] /\
    route.Handler rt = okHandler "up" /\
    route.Methods rt = ["GET"] /\
    handlerFor (mkRegistry [routeA;
                            route.mk (literalRegexp "/health") (okHandler "up") ["GET"]])
               (mkRequest "GET" "/a/health" []) =
    if existsb (fun r => routeMatches r (mkRequest "GET" "/a/health" []))
               (routes (mkRegistry [routeA]))
    then handlerFor (mkRegistry [routeA]) (mkRequest "GET" "/a/health" [])
    else if routeMatches rt (mkRequest "GET" "/a/health" [])
         then Returns (okHandler "up")
         else Returns NoMatchingHandler.
Proof.
  split; [reflexivity|].
  apply (register_then_getHandler (mkRegistry [routeA]) _ "/health"
           (okHandler "up") ["GET"] (mkRequest "GET" "/a/health" [])).
  reflexivity.
Defined.

(** X3: a pattern registered a second time, with methods that the first
    registration allows too, gives a route that is never selected:
    dispatch finds the same handler before and after the second
    registration, whatever was registered in between. *)
Theorem second_registration_unreachable :
  forall (rg rg1 rg2 rg3 : handlerRegistry) (path : string)
         (h1 h2 : Handler) (ms1 ms2 : list string) (calls : list call)
         (req : Request),
    (forall m, contains ms2 m = true -> contains ms1 m = true) ->
    register rg path h1 ms1 = Returns rg1 ->
    steps rg1 calls = Returns rg2 ->
    register rg2 path h2 ms2 = Returns rg3 ->
    handlerFor rg3 req = handlerFor rg2 req.
Proof.
  intros rg rg1 rg2 rg3 path h1 h2 ms1 ms2 calls req Hsub H1 Hs H3.
  destruct (register_returns _ _ _ _ _ H1) as (re & Hre & Hr1).
  destruct (register_returns _ _ _ _ _ H3) as (re' & Hre' & Hr3).
  rewrite Hre in Hre'. injection Hre' as <-.
  destruct (steps_extend calls _ _ Hs) as [more Hr2].
  unfold handlerFor, getHandler. cbn [bind fst]. f_equal.
  rewrite Hr3, Hr2, Hr1, <- !app_assoc. cbn [app].
  rewrite (scan_shadowed (routes rg) more [] (route.mk re h1 ms1)
                         (route.mk re h2 ms2) req NoMatchingHandler).
  - now rewrite app_nil_r.
  - unfold routeMatches. cbn [route.Pattern route.Methods].
    intros H. apply andb_true_iff in H. destruct H as [Hp Hm].
    now rewrite Hp, (Hsub _ Hm).
Qed.

Lemma second_registration_unreachable_witness :
  (forall m, contains ["GET"] m = true -> contains ["GET"; "POST"] m = true) /\
  register emptyRegistry "/a" (okHandler "B") ["GET"; "POST"] =
    Returns (mkRegistry [routeB]) /\
  steps (mkRegistry [routeB]) [GetHandler (mkRequest "GET" "/a" [])] =
    Returns (mkRegistry [routeB]) /\
  register (mkRegistry [routeB]) "/a" (okHandler "A") ["GET"] =
    Returns (mkRegistry [routeB; routeA]) /\
  handlerFor (mkRegistry [routeB; routeA]) (mkRequest "GET" "/a" []) =
  handlerFor (mkRegistry [routeB]) (mkRequest "GET" "/a" []).
Proof.
  assert (Hsub : forall m, contains ["GET"] m = true ->
                           contains ["GET"; "POST"] m = true).
  { intros m H. cbn [contains existsb] in *.
    apply orb_true_iff in H. destruct H as [H|H]; [|discriminate].
    now rewrite H. }
  split; [exact Hsub | split; [reflexivity | split; [reflexivity |
    split; [reflexivity|]]]].
  apply (second_registration_unreachable emptyRegistry (mkRegistry [routeB])
           (mkRegistry [routeB]) (mkRegistry [routeB; routeA]) "/a"
           (okHandler "B") (okHandler "A") ["GET"; "POST"] ["GET"]
           [GetHandler (mkRequest "GET" "/a" [])] (mkRequest "GET" "/a" []));
    [exact Hsub | reflexivity | reflexivity | reflexivity].
Defined.

Lemma bindings_app (l1 l2 : list route.t) :
  bindings (l1 ++ l2) = bindings l1 ++ bindings l2.
Proof. unfold bindings. apply map_app. Qed.

(** X4: after any run of calls that returns, the table lists the
    handler and the methods of every call of register, one route for
    each, in the order of the calls, after the routes it had before;
    calls of getHandler add nothing. *)
Theorem table_lists_registrations :
  forall (calls : list call) (rg rg' : handlerRegistry),
    steps rg calls = Returns rg' ->
    bindings (routes rg') = bindings (routes rg) ++ registrations calls.
Proof.
  induction calls as [|c calls IH]; intros rg rg'; cbn [steps].
  - intros H. injection H as <-. cbn [registrations]. now rewrite app_nil_r.
  - destruct (step rg c) as [rg1| |] eqn:Hstep; cbn [bind]; try discriminate.
    intros H. rewrite (IH _ _ H).
    destruct c as [path h ms|req]; cbn [step registrations] in *.
    + destruct (register_returns _ _ _ _ _ Hstep) as (re & _ & Hr).
      rewrite Hr, bindings_app, <- app_assoc. reflexivity.
    + unfold getHandler in Hstep. cbn [bind snd] in Hstep.
      injection Hstep as <-. reflexivity.
Qed.

Lemma table_lists_registrations_witness :
  steps emptyRegistry
        [Register "/a" (okHandler "A") ["GET"];
         GetHandler (mkRequest "GET" "/a" []);
         Register "/a" (okHandler "B") ["GET"; "POST"]] =
    Returns (mkRegistry [routeA; routeB]) /\
  bindings (routes (mkRegistry [routeA; routeB])) =
  bindings (routes emptyRegistry) ++
  registrations [Register "/a" (okHandler "A") ["GET"];
                 GetHandler (mkRequest "GET" "/a" []);
                 Register "/a" (okHandler "B") ["GET"; "POST"]].
Proof.
  split; [reflexivity|].
  apply (table_lists_registrations
           [Register "/a" (okHandler "A") ["GET"];
            GetHandler (mkRequest "GET" "/a" []);
            Register "/a" (okHandler "B") ["GET"; "POST"]]
           emptyRegistry (mkRegistry [routeA; routeB])).
  reflexivity.
Defined.

(* ================================================================== *)
(** ** The translation, part by part *)

Lemma Split_app (a b : string) (sep : ascii) :
  strings.Split (a ++ String sep b) sep =
  strings.Split a sep ++ strings.Split b sep.
Proof.
  induction a as [|c a IH]; cbn [append strings.Split].
  - now rewrite Ascii.eqb_refl.
  - destruct (Ascii.eqb c sep).
    + now rewrite IH.
    + rewrite IH. pose proof (Split_not_nil a sep) as Hn.
      destruct (strings.Split a sep); [contradiction | reflexivity].
Qed.

Lemma Join_app (l1 l2 : list string) (sep : string) :
  l1 <> [] -> l2 <> [] ->
  strings.Join (l1 ++ l2) sep =
  (strings.Join l1 sep ++ sep ++ strings.Join l2 sep)%string.
Proof.
  intros H1 H2. induction l1 as [|p l1 IH]; [contradiction|].
  destruct l1 as [|q l1].
  - destruct l2 as [|r l2]; [contradiction | reflexivity].
  - change (strings.Join ((p :: q :: l1) ++ l2) sep)
      with (p ++ sep ++ strings.Join ((q :: l1) ++ l2) sep)%string.
    rewrite IH by discriminate.
    change (strings.Join (p :: q :: l1) sep)
      with (p ++ sep ++ strings.Join (q :: l1) sep)%string.
    now rewrite !append_assoc.
Qed.

Lemma map_translatePart_noParam (parts : list string) :
  noParam parts = true -> map translatePart parts = parts.
Proof.
  unfold noParam. induction parts as [|p ps IH]; cbn [forallb map];
    [reflexivity|].
  intros H. apply andb_true_iff in H. destruct H as [Hp Hps].
  apply negb_true_iff in Hp. unfold translatePart at 1.
  now rewrite Hp, IH.
Qed.

(** A pattern none of whose parts starts with a colon is handed to the
    compiler as it is. *)
Lemma regexpStr_noParam (pathPattern : string) :
  noParam (strings.Split pathPattern "/") = true ->
  regexpStr pathPattern = pathPattern.
Proof.
  intros H. unfold regexpStr.
  rewrite map_translatePart_noParam by assumption. apply Join_Split.
Qed.

(** X5: the translation works part by part: the text compiled for two
    patterns joined by a slash is the two texts joined by a slash. *)
Theorem regexpStr_slash :
  forall a b : string,
    regexpStr (a ++ "/" ++ b) = (regexpStr a ++ "/" ++ regexpStr b)%string.
Proof.
  intros a b. unfold regexpStr. cbn [append].
  rewrite Split_app, map_app.
  apply Join_app; intros H; apply map_eq_nil in H;
    eapply Split_not_nil; exact H.
Qed.

(* ================================================================== *)
(** ** Patterns without parameters *)

Lemma MustCompile_literal (lit : string) :
  allChars isLiteralChar lit = true ->
  MustCompile lit = Returns (literalRegexp lit).
Proof.
  intros H. unfold MustCompile, literalRegexp.
  rewrite <- (append_nil_r lit) at 1.
  rewrite parse_literal by assumption.
  cbn [parse bind]. now rewrite app_nil_r, rev_involutive.
Qed.

(** Registration of a literal pattern, and the condition of its route. *)
Lemma literal_pattern_is_substring_test_aux (pathPattern : string)
      (handler : Handler) (allowedMethods : list string) (rg : handlerRegistry) :
  allChars isLiteralChar pathPattern = true ->
  noParam (strings.Split pathPattern "/") = true ->
  register rg pathPattern handler allowedMethods =
    Returns (mkRegistry
               (routes rg ++
                [route.mk (literalRegexp pathPattern) handler allowedMethods])) /\
  forall req,
    routeMatches (route.mk (literalRegexp pathPattern) handler allowedMethods) req =
    Contains (Path req) pathPattern && contains allowedMethods (Method req).
Proof.
  intros Hlit Hno. split.
  - unfold register, newRoute, translatePatternToRegexp.
    rewrite regexpStr_noParam by assumption.
    rewrite MustCompile_literal by assumption. reflexivity.
  - intros req. unfold routeMatches. cbn [route.Pattern route.Methods].
    now rewrite FindStringSubmatch_literals.
Qed.

(** X6: a pattern of literal characters in which no part starts with a
    colon compiles, and its route accepts exactly the paths that hold the
    pattern somewhere: the match is a substring test, not a comparison
    of whole paths. *)
Theorem literal_pattern_is_substring_test :
  forall (pathPattern : string) (handler : Handler)
         (allowedMethods : list string) (rg : handlerRegistry),
    allChars isLiteralChar pathPattern = true ->
    noParam (strings.Split pathPattern "/") = true ->
    exists rt,
      register rg pathPattern handler allowedMethods =
        Returns (mkRegistry (routes rg ++ [rt])) /\
      route.Handler rt = handler /\
      forall req,
        routeMatches rt req =
        Contains (Path req) pathPattern && contains allowedMethods (Method req).
Proof.
  intros pathPattern handler allowedMethods rg Hlit Hno.
  exists (route.mk (literalRegexp pathPattern) handler allowedMethods).
  destruct (literal_pattern_is_substring_test_aux pathPattern handler
              allowedMethods rg Hlit Hno) as (Hreg & Hm).
  split; [exact Hreg | split; [reflexivity | exact Hm]].
Qed.

Lemma literal_pattern_is_substring_test_witness :
  allChars isLiteralChar "/api/v1" = true /\
  noParam (strings.Split "/api/v1" "/") = true /\
  exists rt,
    register emptyRegistry "/api/v1" (okHandler "v1") ["GET"] =
      Returns (mkRegistry (routes emptyRegistry ++ [rt])) /\
    route.Handler rt = okHandler "v1" /\
    forall req,
      routeMatches rt req =
      Contains (Path req) "/api/v1" && contains ["GET"] (Method req).
Proof.
  split; [reflexivity | split; [reflexivity|]].
  apply (literal_pattern_is_substring_test "/api/v1" (okHandler "v1") ["GET"]
           emptyRegistry); reflexivity.
Defined.

Lemma Contains_trans (s q p : string) :
  Contains s q = true -> Contains q p = true -> Contains s p = true.
Proof.
  rewrite !Contains_iff.
  intros (a & b & ->) (c & d & ->).
  exists (a ++ c)%string, (d ++ b)%string.
  now rewrite !append_assoc.
Qed.

(** X7: a literal pattern registered before a literal pattern that holds
    it (as /a before /a/b), with methods that include those of the later
    one, makes the later route unreachable: every path the later pattern
    accepts is accepted by the earlier one first. *)
Theorem longer_literal_pattern_shadowed :
  forall (rg rg1 rg2 rg3 : handlerRegistry) (p q : string)
         (h1 h2 : Handler) (ms1 ms2 : list string) (calls : list call)
         (req : Request),
    allChars isLiteralChar p = true ->
    noParam (strings.Split p "/") = true ->
    allChars isLiteralChar q = true ->
    noParam (strings.Split q "/") = true ->
    Contains q p = true ->
    (forall m, contains ms2 m = true -> contains ms1 m = true) ->
    register rg p h1 ms1 = Returns rg1 ->
    steps rg1 calls = Returns rg2 ->
    register rg2 q h2 ms2 = Returns rg3 ->
    handlerFor rg3 req = handlerFor rg2 req.
Proof.
  intros rg rg1 rg2 rg3 p q h1 h2 ms1 ms2 calls req
         Hp Hnp Hq Hnq Hqp Hsub H1 Hs H3.
  destruct (literal_pattern_is_substring_test_aux p h1 ms1 rg Hp Hnp)
    as (Hreg1 & Hm1).
  destruct (literal_pattern_is_substring_test_aux q h2 ms2 rg2 Hq Hnq)
    as (Hreg3 & Hm3).
  rewrite Hreg1 in H1. injection H1 as <-.
  rewrite Hreg3 in H3. injection H3 as <-.
  destruct (steps_extend calls _ _ Hs) as [more Hr2]. cbn [routes] in Hr2.
  unfold handlerFor, getHandler. cbn [bind fst routes]. f_equal.
  rewrite Hr2, <- !app_assoc. cbn [app].
  rewrite (scan_shadowed (routes rg) more []
             (route.mk (literalRegexp p) h1 ms1)
             (route.mk (literalRegexp q) h2 ms2) req NoMatchingHandler).
  - now rewrite app_nil_r.
  - rewrite Hm1, Hm3. intros H. apply andb_true_iff in H. destruct H as [Hc Hm].
    now rewrite (Contains_trans _ _ _ Hc Hqp), (Hsub _ Hm).
Qed.

Lemma longer_literal_pattern_shadowed_witness :
  allChars isLiteralChar "/a" = true /\
  noParam (strings.Split "/a" "/") = true /\
  allChars isLiteralChar "/a/b" = true /\
  noParam (strings.Split "/a/b" "/") = true /\
  Contains "/a/b" "/a" = true /\
  (forall m, contains ["GET"] m = true -> contains ["GET"] m = true) /\
  register emptyRegistry "/a" (okHandler "A") ["GET"] =
    Returns (mkRegistry [routeA]) /\
  steps (mkRegistry [routeA]) [] = Returns (mkRegistry [routeA]) /\
  register (mkRegistry [routeA]) "/a/b" (okHandler "AB") ["GET"] =
    Returns (mkRegistry [routeA;
                         route.mk (literalRegexp "/a/b") (okHandler "AB") ["GET"]]) /\
  handlerFor (mkRegistry [routeA;
                          route.mk (literalRegexp "/a/b") (okHandler "AB") ["GET"]])
             (mkRequest "GET" "/a/b" []) =
  handlerFor (mkRegistry [routeA]) (mkRequest "GET" "/a/b" []).
Proof.
  repeat (split; [first [reflexivity | intros m H; exact H]|]).
  apply (longer_literal_pattern_shadowed emptyRegistry (mkRegistry [routeA])
           (mkRegistry [routeA])
           (mkRegistry [routeA;
                        route.mk (literalRegexp "/a/b") (okHandler "AB") ["GET"]])
           "/a" "/a/b" (okHandler "A") (okHandler "AB") ["GET"] ["GET"] []
           (mkRequest "GET" "/a/b" []));
    first [reflexivity | intros m H; exact H].
Defined.

(* ================================================================== *)
(** ** Parameter names that Go rejects *)

Lemma HasPrefix_colon (name : string) :
  strings.HasPrefix (String ":" name) ":" = true.
Proof. unfold strings.HasPrefix. cbn. apply prefix_nil. Qed.

Lemma translatePart_param (name : string) :
  translatePart (String ":" name) = ("(?P<" ++ name ++ ">[\S|^\/]+)")%string.
Proof. unfold translatePart. now rewrite HasPrefix_colon. Qed.

Lemma parse_name_any (name rest : string) :
  allChars (fun c => negb (Ascii.eqb c ">")) name = true ->
  forall acc n stk cur,
    parse (name ++ rest) (InName acc) n stk cur =
    parse rest (InName (acc ++ name)) n stk cur.
Proof.
  induction name as [|c name IH]; intros H acc n stk cur; simpl in H;
    cbn [append].
  - now rewrite append_nil_r.
  - apply andb_true_iff in H. destruct H as [Hc Hl].
    apply negb_true_iff in Hc.
    cbn [parse]. rewrite Hc.
    rewrite IH by assumption.
    rewrite append_assoc. reflexivity.
Qed.

Lemma parse_bad_name (name rest : string) (n : nat) (stk : list frame)
      (cur : list regex) :
  allChars (fun c => negb (Ascii.eqb c ">")) name = true ->
  isValidCaptureName name = false ->
  parse (("(?P<" ++ name ++ ">[\S|^\/]+)") ++ rest) InSeq n stk cur = Panics.
Proof.
  intros Hgt Hbad.
  rewrite !append_assoc.
  cbn [append parse Ascii.eqb Bool.eqb].
  rewrite parse_name_any by assumption.
  cbn [append]. cbn [parse Ascii.eqb Bool.eqb].
  now rewrite Hbad.
Qed.

Lemma Join_cons (p : string) (l : list string) (sep : string) :
  strings.Join (p :: l) sep =
  (p ++ match l with [] => "" | _ => sep ++ strings.Join l sep end)%string.
Proof. destruct l; cbn [strings.Join]; [now rewrite append_nil_r | reflexivity]. Qed.

Lemma parse_parts_then_panic (before : list string) :
  forallb wellFormedPart before = true ->
  forall (l : list string) (n : nat) (cur : list regex),
    l <> [] ->
    (forall n cur, parse (strings.Join l "/") InSeq n [] cur = Panics) ->
    parse (strings.Join (map translatePart before ++ l) "/") InSeq n [] cur = Panics.
Proof.
  induction before as [|p before IH]; intros Hwf l n cur Hl Hpanic.
  - apply Hpanic.
  - cbn [forallb] in Hwf. apply andb_true_iff in Hwf. destruct Hwf as [Hp Hps].
    cbn [map app]. rewrite Join_cons.
    destruct (map translatePart before ++ l) as [|x xs] eqn:Hx.
    + apply app_eq_nil in Hx. destruct Hx as [_ Hx]. contradiction.
    + destruct (parse_part p ("/" ++ strings.Join (x :: xs) "/") n cur Hp)
        as (n' & cur' & Hrun & _).
      rewrite Hrun. cbn [append].
      rewrite parse_literal_char by reflexivity.
      rewrite <- Hx. now apply IH.
Qed.

(** X8: a parameter segment whose name is empty or has a character other
    than a letter, a digit or an underscore makes the compilation panic,
    and the registration with it, when the segments before it are well
    formed (the name is taken without the character >, which would end
    the name early). *)
Theorem invalid_parameter_name_panics :
  forall (pathPattern name : string) (before after : list string),
    strings.Split pathPattern "/" = before ++ String ":" name :: after ->
    forallb wellFormedPart before = true ->
    allChars (fun c => negb (Ascii.eqb c ">")) name = true ->
    isValidCaptureName name = false ->
    translatePatternToRegexp pathPattern = Panics /\
    forall rg handler allowedMethods,
      register rg pathPattern handler allowedMethods = Panics.
Proof.
  intros pathPattern name before after Hsplit Hwf Hgt Hbad.
  assert (Hp : translatePatternToRegexp pathPattern = Panics).
  { unfold translatePatternToRegexp, MustCompile, regexpStr.
    rewrite Hsplit, map_app. cbn [map].
    rewrite parse_parts_then_panic; [reflexivity | assumption | discriminate |].
    intros n cur. rewrite Join_cons, translatePart_param.
    now apply parse_bad_name. }
  split; [exact Hp|].
  intros rg handler allowedMethods. unfold register, newRoute.
  now rewrite Hp.
Qed.

Lemma invalid_parameter_name_panics_witness :
  strings.Split "/users/:user-id/items" "/" =
    [""; "users"] ++ String ":" "user-id" :: ["items"] /\
  forallb wellFormedPart [""; "users"] = true /\
  allChars (fun c => negb (Ascii.eqb c ">")) "user-id" = true /\
  isValidCaptureName "user-id" = false /\
  translatePatternToRegexp "/users/:user-id/items" = Panics /\
  forall rg handler allowedMethods,
    register rg "/users/:user-id/items" handler allowedMethods = Panics.
Proof.
  split; [reflexivity | split; [reflexivity | split; [reflexivity |
    split; [reflexivity|]]]].
  apply (invalid_parameter_name_panics "/users/:user-id/items" "user-id"
           [""; "users"] ["items"]); reflexivity.
Defined.

(* ================================================================== *)
(** ** The expression of a well-formed pattern *)

Lemma parse_parts_nodes (parts : list string) :
  forallb wellFormedPart parts = true ->
  forall n cur,
    parse (strings.Join (map translatePart parts) "/") InSeq n [] cur =
    Returns (concat (rev cur ++ patternNodes parts n)).
Proof.
  induction parts as [|p ps IH]; intros Hwf n cur.
  - cbn. now rewrite app_nil_r.
  - cbn [forallb] in Hwf. apply andb_true_iff in Hwf. destruct Hwf as [Hp Hps].
    cbn [map]. rewrite Join_cons. cbn [patternNodes].
    unfold wellFormedPart in Hp. unfold translatePart at 1.
    destruct (strings.HasPrefix p ":") eqn:Hcolon.
    + rewrite !append_assoc.
      rewrite (parse_param (strings.tail p) _ n [] cur Hp).
      destruct ps as [|q qs].
      * cbn [map parse]. reflexivity.
      * cbn [map append]. rewrite parse_literal_char by reflexivity.
        change (translatePart q :: map translatePart qs)
          with (map translatePart (q :: qs)).
        rewrite (IH Hps). cbn [rev]. now rewrite <- !app_assoc.
    + rewrite parse_literal by assumption.
      destruct ps as [|q qs].
      * cbn [map parse]. rewrite rev_app_distr, rev_involutive.
        cbn [app patternNodes]. now rewrite !app_nil_r.
      * cbn [map append]. rewrite parse_literal_char by reflexivity.
        change (translatePart q :: map translatePart qs)
          with (map translatePart (q :: qs)).
        rewrite (IH Hps). cbn [rev].
        rewrite rev_app_distr, rev_involutive. now rewrite <- !app_assoc.
Qed.

Lemma wellFormed_tree (pathPattern : string) :
  wellFormedPattern pathPattern = true ->
  translatePatternToRegexp pathPattern =
  Returns (mkRegexp (regexpStr pathPattern)
                    (concat (patternNodes (strings.Split pathPattern "/") 0))).
Proof.
  intros Hwf. unfold translatePatternToRegexp, MustCompile, regexpStr.
  now rewrite (parse_parts_nodes _ Hwf 0 []).
Qed.

(* ================================================================== *)
(** ** Matching a pattern with parameters *)

Lemma run_literals_app (l : string) (rs : list regex) :
  forall s pos caps k,
    run (concat (map litNode (list_ascii_of_string l) ++ rs)) (l ++ s) pos caps k =
    run (concat rs) s (pos + String.length l) caps k.
Proof.
  induction l as [|c l IH]; intros s pos caps k.
  - cbn [list_ascii_of_string map app append String.length].
    now rewrite Nat.add_0_r.
  - cbn [list_ascii_of_string map app append String.length concat fold_right
         run litNode atomMatches].
    rewrite Ascii.eqb_refl.
    fold (concat (map litNode (list_ascii_of_string l) ++ rs)).
    rewrite IH. now rewrite Nat.add_succ_r.
Qed.

(** The greedy repetition finds a match whenever the rest of the
    expression matches after some run of characters of the class. *)
Lemma star_backtrack (a : atom) (v s : string) (k : cont) :
  allChars (atomMatches a) v = true ->
  (forall pos caps, k s pos caps <> None) ->
  forall pos caps, star a (v ++ s) pos caps k <> None.
Proof.
  intros Hv Hk. induction v as [|c v IH]; intros pos caps; cbn [append].
  - destruct s as [|d s]; cbn [star]; [apply Hk|].
    destruct (atomMatches a d); [|apply Hk].
    destruct (star a s (S pos) caps k); [discriminate | apply Hk].
  - cbn [allChars] in Hv. apply andb_true_iff in Hv. destruct Hv as [Hc Hv].
    cbn [star]. rewrite Hc.
    specialize (IH Hv (S pos) caps).
    destruct (star a (v ++ s) (S pos) caps k); [discriminate | contradiction].
Qed.

Lemma allChars_ext (f g : ascii -> bool) (s : string) :
  (forall c, f c = g c) -> allChars f s = allChars g s.
Proof.
  intros H. induction s as [|c s IH]; cbn [allChars]; [reflexivity|].
  now rewrite H, IH.
Qed.

Lemma nonSpace_paramAtom (v : string) :
  allChars nonSpace v = true -> allChars (atomMatches paramAtom) v = true.
Proof.
  intros H. rewrite <- H. apply allChars_ext. apply paramAtom_matches.
Qed.

Lemma run_param_some (idx : nat) (name : string) (rs : list regex)
      (v s : string) (k : cont) :
  v <> EmptyString -> allChars nonSpace v = true ->
  (forall pos caps, run (concat rs) s pos caps k <> None) ->
  forall pos caps,
    run (concat (paramNode idx name :: rs)) (v ++ s) pos caps k <> None.
Proof.
  intros Hne Hv Hk pos caps.
  destruct v as [|c v]; [contradiction|].
  apply nonSpace_paramAtom in Hv.
  cbn [allChars] in Hv. apply andb_true_iff in Hv. destruct Hv as [Hc Hv].
  cbn [concat fold_right paramNode run append]. rewrite Hc.
  apply (star_backtrack paramAtom v s); [exact Hv|].
  intros pos' caps'. cbn beta. apply Hk.
Qed.

Lemma run_instance (parts segs : list string) :
  Forall2 instanceOf parts segs ->
  forall (n : nat) (s : string) (k : cont),
    (forall pos caps, k s pos caps <> None) ->
    forall pos caps,
      run (concat (patternNodes parts n)) (strings.Join segs "/" ++ s) pos caps k
      <> None.
Proof.
  induction 1 as [|p g ps gs Hpg Hrest IH]; intros n s k Hk pos caps.
  - cbn. apply Hk.
  - rewrite Join_cons. cbn [patternNodes]. rewrite append_assoc.
    assert (Htail : forall n' pos' caps',
               run (concat (match ps with [] => [] | _ => [litNode "/"] end
                            ++ patternNodes ps n'))
                   (match gs with
                    | [] => ""
                    | _ => "/" ++ strings.Join gs "/"
                    end ++ s)%string pos' caps' k <> None).
    { intros n' pos' caps'. inversion Hrest as [|q g' qs gs' Hq Hqs]; subst.
      - cbn. apply Hk.
      - cbn [app append concat fold_right run litNode atomMatches].
        rewrite Ascii.eqb_refl. apply (IH n' s k Hk). }
    unfold instanceOf in Hpg.
    destruct (strings.HasPrefix p ":").
    + destruct Hpg as [Hne Hv].
      apply run_param_some; [assumption | assumption |].
      intros pos' caps'. apply Htail.
    + subst g. rewrite run_literals_app. apply Htail.
Qed.

Lemma search_suffix (r : regex) (pre s : string) :
  (forall pos, run r s pos [] accept <> None) ->
  forall pos, search r (pre ++ s) pos <> None.
Proof.
  intros Hs. induction pre as [|c pre IH]; intros pos; cbn [append].
  - specialize (Hs pos). destruct s; cbn [search];
      destruct (run r _ pos [] accept); try discriminate; contradiction.
  - cbn [search].
    destruct (run r (String c (pre ++ s)) pos [] accept); [discriminate|].
    apply IH.
Qed.

(** X9: every path made from a well-formed pattern by putting a text
    without white space, and not empty, in the place of each parameter
    segment is accepted by the compiled matcher, also when the text has
    slashes in it, and also when the path goes on before or after. *)
Theorem pattern_accepts_its_instances :
  forall (pathPattern : string) (segs : list string) (pre post : string),
    wellFormedPattern pathPattern = true ->
    Forall2 instanceOf (strings.Split pathPattern "/") segs ->
    exists re,
      translatePatternToRegexp pathPattern = Returns re /\
      FindStringSubmatch re (pre ++ strings.Join segs "/" ++ post) <> [].
Proof.
  intros pathPattern segs pre post Hwf Hinst.
  eexists. split; [apply wellFormed_tree; exact Hwf|].
  unfold FindStringSubmatch. cbn [tree].
  pose proof (search_suffix
                (concat (patternNodes (strings.Split pathPattern "/") 0))
                pre (strings.Join segs "/" ++ post)) as Hsearch.
  destruct (search _ (pre ++ strings.Join segs "/" ++ post) 0)
    as [[b [e caps]]|] eqn:Hs; [discriminate|].
  exfalso. apply (Hsearch) with (pos := 0); [|exact Hs].
  intros pos. apply (run_instance _ _ Hinst 0 post accept).
  intros pos' caps'. discriminate.
Qed.

Lemma pattern_accepts_its_instances_witness :
  wellFormedPattern "/users/:id/items" = true /\
  Forall2 instanceOf (strings.Split "/users/:id/items" "/")
          [""; "users"; "42/43"; "items"] /\
  exists re,
    translatePatternToRegexp "/users/:id/items" = Returns re /\
    FindStringSubmatch
      re ("/v1" ++ strings.Join [""; "users"; "42/43"; "items"] "/" ++ "/more")
    <> [].
Proof.
  assert (Hinst : Forall2 instanceOf (strings.Split "/users/:id/items" "/")
                          [""; "users"; "42/43"; "items"]).
  { change (strings.Split "/users/:id/items" "/")
      with [""; "users"; ":id"; "items"].
    repeat apply Forall2_cons; try apply Forall2_nil;
      cbv [instanceOf]; cbn; try reflexivity.
    split; [discriminate | reflexivity]. }
  split; [reflexivity | split; [exact Hinst|]].
  apply (pattern_accepts_its_instances "/users/:id/items"
           [""; "users"; "42/43"; "items"] "/v1" "/more");
    [reflexivity | exact Hinst].
Defined.

(* ================================================================== *)
(** ** A pattern that ends with a parameter *)

Lemma allChars_app (f : ascii -> bool) (a b : string) :
  allChars f (a ++ b) = allChars f a && allChars f b.
Proof.
  induction a as [|c a IH]; cbn [append allChars]; [reflexivity|].
  now rewrite IH, andb_assoc.
Qed.

Lemma Split_one (s : string) (sep : ascii) :
  allChars (fun c => negb (Ascii.eqb c sep)) s = true ->
  strings.Split s sep = [s].
Proof.
  induction s as [|c s IH]; cbn [allChars strings.Split]; [reflexivity|].
  intros H. apply andb_true_iff in H. destruct H as [Hc Hs].
  apply negb_true_iff in Hc. now rewrite Hc, (IH Hs).
Qed.

Lemma isWord_not_slash (name : string) :
  allChars isWord name = true ->
  allChars (fun c => negb (Ascii.eqb c "/")) name = true.
Proof.
  induction name as [|c name IH]; cbn [allChars]; [reflexivity|].
  intros H. apply andb_true_iff in H. destruct H as [Hc Hs].
  rewrite (IH Hs), andb_true_r.
  destruct (Ascii.eqb_spec c "/") as [->|]; [discriminate | reflexivity].
Qed.

Lemma validName_word (name : string) :
  isValidCaptureName name = true -> allChars isWord name = true.
Proof. destruct name; [discriminate | trivial]. Qed.

(** The expression compiled from a literal prefix, a slash and a final
    parameter segment. *)
Lemma compile_prefix_param (prefix name : string) :
  allChars isLiteralChar prefix = true ->
  noParam (strings.Split prefix "/") = true ->
  isValidCaptureName name = true ->
  translatePatternToRegexp (prefix ++ "/:" ++ name) =
  Returns (mkRegexp (regexpStr (prefix ++ "/:" ++ name))
             (concat (map litNode (list_ascii_of_string (prefix ++ "/"))
                      ++ [paramNode 1 name]))).
Proof.
  intros Hlit Hno Hname.
  unfold translatePatternToRegexp, MustCompile.
  assert (Hstr : regexpStr (prefix ++ "/:" ++ name) =
                 ((prefix ++ "/") ++ ("(?P<" ++ name ++ ">[\S|^\/]+)") ++ "")%string).
  { unfold regexpStr. cbn [append]. rewrite Split_app, map_app.
    rewrite map_translatePart_noParam by assumption.
    rewrite (Split_one (String ":" name) "/").
    - cbn [map]. rewrite translatePart_param.
      rewrite Join_app; [|apply Split_not_nil | discriminate].
      rewrite Join_Split. cbn [strings.Join].
      now rewrite !append_assoc, append_nil_r.
    - cbn [allChars Ascii.eqb Bool.eqb negb andb].
      apply isWord_not_slash, validName_word, Hname. }
  rewrite Hstr at 1.
  rewrite parse_literal
    by (rewrite allChars_app, Hlit; reflexivity).
  rewrite !append_assoc, parse_param by assumption.
  cbn [parse bind rev]. now rewrite app_nil_r, rev_involutive.
Qed.

(** The greedy repetition takes the whole run of characters of the class
    when the class stops there and the rest of the expression matches. *)
Lemma star_greedy (a : atom) (v rest : string) (k : cont) (res : result) :
  allChars (atomMatches a) v = true ->
  match rest with
  | EmptyString => true
  | String d _ => negb (atomMatches a d)
  end = true ->
  forall pos caps,
    k rest (pos + String.length v) caps = Some res ->
    star a (v ++ rest) pos caps k = Some res.
Proof.
  intros Hv Hstop. induction v as [|c v IH]; intros pos caps Hk;
    cbn [append String.length] in *.
  - rewrite Nat.add_0_r in Hk.
    destruct rest as [|d rest]; cbn [star]; [exact Hk|].
    apply negb_true_iff in Hstop. now rewrite Hstop.
  - cbn [allChars] in Hv. apply andb_true_iff in Hv. destruct Hv as [Hc Hv].
    cbn [star]. rewrite Hc.
    rewrite (IH Hv (S pos) caps); [reflexivity|].
    now rewrite Nat.add_succ_r in Hk.
Qed.

Lemma substring_prefix (a b : string) :
  substring 0 (String.length a) (a ++ b) = a.
Proof.
  induction a as [|c a IH]; cbn [String.length append substring].
  - destruct b; reflexivity.
  - now rewrite IH.
Qed.

Lemma substring_skip (a b : string) (n : nat) :
  substring (String.length a) n (a ++ b) = substring 0 n b.
Proof.
  induction a as [|c a IH]; cbn [String.length append substring];
    [reflexivity | exact IH].
Qed.

Lemma length_append (a b : string) :
  String.length (a ++ b) = String.length a + String.length b.
Proof.
  induction a as [|c a IH]; cbn [String.length append]; [reflexivity|].
  now rewrite IH.
Qed.

(** X10: for a pattern made of a literal prefix, a slash and a final
    parameter segment, on a path that starts with the prefix and the
    slash, the parameter takes the whole text up to the first white
    space or the end of the path, slashes included, and the match is the
    prefix, the slash and that text. *)
Theorem final_parameter_takes_rest_of_path :
  forall prefix name v rest : string,
    allChars isLiteralChar prefix = true ->
    noParam (strings.Split prefix "/") = true ->
    isValidCaptureName name = true ->
    v <> EmptyString ->
    allChars nonSpace v = true ->
    atBoundary rest = true ->
    exists re,
      translatePatternToRegexp (prefix ++ "/:" ++ name) = Returns re /\
      SubexpNames re = [EmptyString; name] /\
      FindStringSubmatch re (prefix ++ "/" ++ v ++ rest) =
      [(prefix ++ "/" ++ v)%string; v].
Proof.
  intros prefix name v rest Hlit Hno Hname Hne Hv Hrest.
  eexists. split; [apply compile_prefix_param; assumption|].
  assert (Hnames : groupNames
                     (concat (map litNode (list_ascii_of_string (prefix ++ "/"))
                              ++ [paramNode 1 name])) = [name]).
  { rewrite groupNames_concat, flat_map_app, groupNames_literals. reflexivity. }
  split; [unfold SubexpNames; cbn [tree]; now rewrite Hnames|].
  unfold FindStringSubmatch, NumSubexp. cbn [tree]. rewrite Hnames.
  set (L := (prefix ++ "/")%string).
  assert (Hrun :
    run (concat (map litNode (list_ascii_of_string L) ++ [paramNode 1 name]))
        (L ++ v ++ rest) 0 [] accept =
    Some (String.length L + String.length v,
          [(1, (String.length L, String.length L + String.length v))])).
  { rewrite run_literals_app. cbn [Nat.add].
    destruct v as [|c v]; [contradiction|].
    apply nonSpace_paramAtom in Hv.
    cbn [allChars] in Hv. apply andb_true_iff in Hv. destruct Hv as [Hc Hv].
    cbn [concat fold_right paramNode run append]. rewrite Hc.
    apply star_greedy; [exact Hv | |].
    - destruct rest as [|d rest]; [reflexivity|].
      cbn [atBoundary] in Hrest. now rewrite paramAtom_matches, Hrest.
    - cbn [String.length accept]. now rewrite Nat.add_succ_r. }
  replace (prefix ++ "/" ++ v ++ rest)%string with (L ++ v ++ rest)%string
    by (unfold L; now rewrite append_assoc).
  assert (Hsearch :
    search (concat (map litNode (list_ascii_of_string L) ++ [paramNode 1 name]))
           (L ++ v ++ rest) 0 =
    Some (0, (String.length L + String.length v,
              [(1, (String.length L, String.length L + String.length v))]))).
  { destruct (L ++ v ++ rest)%string eqn:Hs; cbn [search]; now rewrite Hrun. }
  rewrite Hsearch. cbn [List.length seq map lookupCap Nat.eqb].
  unfold slice.
  rewrite Nat.sub_0_r, Nat.add_comm, Nat.add_sub.
  f_equal; [|f_equal].
  - rewrite Nat.add_comm, <- length_append, <- append_assoc, substring_prefix.
    unfold L. apply append_assoc.
  - now rewrite substring_skip, substring_prefix.
Qed.

Lemma final_parameter_takes_rest_of_path_witness :
  allChars isLiteralChar "/files" = true /\
  noParam (strings.Split "/files" "/") = true /\
  isValidCaptureName "path" = true /\
  "a/b.txt" <> EmptyString /\
  allChars nonSpace "a/b.txt" = true /\
  atBoundary " x" = true /\
  exists re,
    translatePatternToRegexp ("/files" ++ "/:" ++ "path") = Returns re /\
    SubexpNames re = [EmptyString; "path"] /\
    FindStringSubmatch re ("/files" ++ "/" ++ "a/b.txt" ++ " x") =
    [("/files" ++ "/" ++ "a/b.txt")%string; "a/b.txt"].
Proof.
  split; [reflexivity | split; [reflexivity | split; [reflexivity |
    split; [discriminate | split; [reflexivity | split; [reflexivity|]]]]]].
  apply (final_parameter_takes_rest_of_path "/files" "path" "a/b.txt" " x");
    try reflexivity. discriminate.
Defined.

(** A match of a literal text followed by a parameter needs more
    characters than the literal text has. *)
Lemma run_prefix_param_short (l name : string) (idx : nat) :
  forall s pos caps k,
    String.length s <= String.length l ->
    run (concat (map litNode (list_ascii_of_string l) ++ [paramNode idx name]))
        s pos caps k = None.
Proof.
  induction l as [|c l IH]; intros s pos caps k Hlen.
  - destruct s; [reflexivity | cbn [String.length] in Hlen; lia].
  - cbn [list_ascii_of_string map app concat fold_right run litNode].
    destruct s as [|d s]; [reflexivity|].
    destruct (atomMatches (ALit c) d); [|reflexivity].
    apply IH. cbn [String.length] in Hlen. lia.
Qed.

Lemma search_prefix_param_short (l name : string) (idx : nat) :
  forall s pos,
    String.length s <= String.length l ->
    search (concat (map litNode (list_ascii_of_string l) ++ [paramNode idx name]))
           s pos = None.
Proof.
  induction s as [|d s IH]; intros pos Hlen; cbn [search];
    rewrite run_prefix_param_short by assumption; [reflexivity|].
  apply IH. cbn [String.length] in Hlen. lia.
Qed.

(** X11: a parameter needs at least one character: the matcher of a
    literal prefix, a slash and a final parameter segment accepts no
    path that is not longer than the prefix and the slash, so not the
    path that stops right after the slash. *)
Theorem final_parameter_needs_a_character :
  forall prefix name path : string,
    allChars isLiteralChar prefix = true ->
    noParam (strings.Split prefix "/") = true ->
    isValidCaptureName name = true ->
    String.length path <= String.length prefix + 1 ->
    exists re,
      translatePatternToRegexp (prefix ++ "/:" ++ name) = Returns re /\
      FindStringSubmatch re path = [] /\
      forall handler allowedMethods method params,
        routeMatches (route.mk re handler allowedMethods)
                     (mkRequest method path params) = false.
Proof.
  intros prefix name path Hlit Hno Hname Hlen.
  eexists. split; [apply compile_prefix_param; assumption|].
  assert (Hnone : FindStringSubmatch
            (mkRegexp (regexpStr (prefix ++ "/:" ++ name))
               (concat (map litNode (list_ascii_of_string (prefix ++ "/"))
                        ++ [paramNode 1 name]))) path = []).
  { unfold FindStringSubmatch. cbn [tree].
    rewrite search_prefix_param_short; [reflexivity|].
    rewrite length_append. exact Hlen. }
  split; [exact Hnone|].
  intros handler allowedMethods method params.
  unfold routeMatches. cbn [route.Pattern Path]. now rewrite Hnone.
Qed.

Lemma final_parameter_needs_a_character_witness :
  allChars isLiteralChar "/users" = true /\
  noParam (strings.Split "/users" "/") = true /\
  isValidCaptureName "id" = true /\
  String.length "/users/" <= String.length "/users" + 1 /\
  exists re,
    translatePatternToRegexp ("/users" ++ "/:" ++ "id") = Returns re /\
    FindStringSubmatch re "/users/" = [] /\
    forall handler allowedMethods method params,
      routeMatches (route.mk re handler allowedMethods)
                   (mkRequest method "/users/" params) = false.
Proof.
  split; [reflexivity | split; [reflexivity | split; [reflexivity |
    split; [apply Nat.le_refl|]]]].
  apply (final_parameter_needs_a_character "/users" "id" "/users/");
    reflexivity.
Defined.

Lemma run_literals_inv (l : string) (rs : list regex) :
  forall s pos caps k,
    run (concat (map litNode (list_ascii_of_string l) ++ rs)) s pos caps k <> None ->
    exists s', s = (l ++ s')%string /\
               run (concat rs) s' (pos + String.length l) caps k <> None.
Proof.
  induction l as [|c l IH]; intros s pos caps k H.
  - exists s. split; [reflexivity|].
    cbn [String.length]. now rewrite Nat.add_0_r.
  - cbn [list_ascii_of_string map app concat fold_right run litNode atomMatches] in H.
    destruct s as [|d s]; [contradiction|].
    destruct (Ascii.eqb_spec c d) as [->|]; [|contradiction].
    destruct (IH _ _ _ _ H) as (s' & -> & Hrun).
    exists s'. split; [reflexivity|].
    cbn [String.length]. now rewrite Nat.add_succ_r.
Qed.

Lemma run_param_inv (idx : nat) (name s : string) (pos : nat)
      (caps : captures) (k : cont) :
  run (concat [paramNode idx name]) s pos caps k <> None ->
  exists c post, s = String c post /\ isSpace c = false.
Proof.
  cbn [concat fold_right paramNode run].
  destruct s as [|c post]; [contradiction|].
  destruct (atomMatches paramAtom c) eqn:Hc; [|contradiction].
  intros _. exists c, post. split; [reflexivity|].
  rewrite paramAtom_matches in Hc. now apply negb_true_iff in Hc.
Qed.

(** The search finds a match exactly when the expression matches at the
    front of some suffix of the text. *)
Lemma search_some_iff (r : regex) (Q : string -> Prop) :
  (forall s pos, run r s pos [] accept <> None <-> Q s) ->
  forall s pos,
    search r s pos <> None <->
    exists pre s', s = (pre ++ s')%string /\ Q s'.
Proof.
  intros HQ. induction s as [|d s IH]; intros pos; cbn [search].
  - split.
    + intros H. exists "", "". split; [reflexivity|]. apply (HQ "" pos).
      destruct (run r "" pos [] accept); [discriminate | contradiction].
    + intros (pre & s' & Heq & Hq).
      destruct pre; [|discriminate]. cbn [append] in Heq. subst s'.
      apply (HQ "" pos) in Hq.
      destruct (run r "" pos [] accept); [discriminate | contradiction].
  - split.
    + intros H.
      destruct (run r (String d s) pos [] accept) eqn:Hrun.
      * exists "", (String d s). split; [reflexivity|].
        apply (HQ _ pos). rewrite Hrun. discriminate.
      * apply IH in H. destruct H as (pre & s' & -> & Hq).
        exists (String d pre), s'. split; [reflexivity | exact Hq].
    + intros (pre & s' & Heq & Hq).
      destruct (run r (String d s) pos [] accept) eqn:Hrun; [discriminate|].
      apply IH. destruct pre as [|c pre].
      * cbn [append] in Heq. subst s'. apply (HQ _ pos) in Hq. contradiction.
      * cbn [append] in Heq. injection Heq as _ ->. now exists pre, s'.
Qed.

(** X12: the matcher of a literal prefix, a slash and a final parameter
    segment accepts exactly the paths in which the prefix and the slash
    occur somewhere, followed by a character that is not white space. *)
Theorem final_parameter_pattern_accepts_iff :
  forall prefix name : string,
    allChars isLiteralChar prefix = true ->
    noParam (strings.Split prefix "/") = true ->
    isValidCaptureName name = true ->
    exists re,
      translatePatternToRegexp (prefix ++ "/:" ++ name) = Returns re /\
      forall path,
        FindStringSubmatch re path <> [] <->
        exists pre c post,
          path = (pre ++ (prefix ++ "/") ++ String c post)%string /\
          isSpace c = false.
Proof.
  intros prefix name Hlit Hno Hname.
  eexists. split; [apply compile_prefix_param; assumption|].
  intros path. unfold FindStringSubmatch. cbn [tree].
  set (L := (prefix ++ "/")%string).
  set (r := concat (map litNode (list_ascii_of_string L) ++ [paramNode 1 name])).
  assert (HQ : forall s pos,
             run r s pos [] accept <> None <->
             exists c post, s = (L ++ String c post)%string /\ isSpace c = false).
  { intros s pos. unfold r. split.
    - intros H. apply run_literals_inv in H. destruct H as (s' & -> & H).
      apply run_param_inv in H. destruct H as (c & post & -> & Hc).
      now exists c, post.
    - intros (c & post & -> & Hc). rewrite run_literals_app.
      apply (run_param_some 1 name [] (String c "") post accept).
      + discriminate.
      + cbn [allChars]. unfold nonSpace. now rewrite Hc.
      + intros pos' caps'. discriminate. }
  pose proof (search_some_iff r _ HQ path 0) as Hs.
  split.
  - intros H. destruct (search r path 0) as [[b [e caps]]|] eqn:Hsearch;
      [|contradiction].
    destruct Hs as [Hs _].
    destruct Hs as (pre & s' & -> & c & post & -> & Hc); [discriminate|].
    now exists pre, c, post.
  - intros (pre & c & post & -> & Hc).
    destruct Hs as [_ Hs].
    destruct (search r (pre ++ L ++ String c post) 0) as [[b [e caps]]|];
      [discriminate|].
    exfalso. apply Hs; [|reflexivity].
    exists pre, (L ++ String c post)%string. split; [reflexivity|].
    now exists c, post.
Qed.

Lemma final_parameter_pattern_accepts_iff_witness :
  allChars isLiteralChar "/users" = true /\
  noParam (strings.Split "/users" "/") = true /\
  isValidCaptureName "id" = true /\
  exists re,
    translatePatternToRegexp ("/users" ++ "/:" ++ "id") = Returns re /\
    forall path,
      FindStringSubmatch re path <> [] <->
      exists pre c post,
        path = (pre ++ ("/users" ++ "/") ++ String c post)%string /\
        isSpace c = false.
Proof.
  split; [reflexivity | split; [reflexivity | split; [reflexivity|]]].
  apply (final_parameter_pattern_accepts_iff "/users" "id"); reflexivity.
Defined.

(** X13: two neighbouring routes that are not both satisfied by a
    request can change places without changing the handler the request
    gets: the order of registration matters only for routes that overlap. *)
Theorem disjoint_routes_commute :
  forall (before after : list route.t) (r1 r2 : route.t) (req : Request),
    routeMatches r1 req && routeMatches r2 req = false ->
    handlerFor (mkRegistry (before ++ r1 :: r2 :: after)) req =
    handlerFor (mkRegistry (before ++ r2 :: r1 :: after)) req.
Proof.
  intros before after r1 r2 req H.
  unfold handlerFor, getHandler. cbn [bind fst routes]. f_equal.
  rewrite !(scan_app before).
  destruct (existsb (fun r => routeMatches r req) before); [reflexivity|].
  cbn [scan].
  destruct (routeMatches r1 req), (routeMatches r2 req);
    try reflexivity. discriminate H.
Qed.

Lemma disjoint_routes_commute_witness :
  routeMatches routeA (mkRequest "GET" "/health" []) &&
  routeMatches (route.mk (literalRegexp "/health") (okHandler "up") ["GET"])
               (mkRequest "GET" "/health" []) = false /\
  handlerFor (mkRegistry ([] ++ routeA ::
                route.mk (literalRegexp "/health") (okHandler "up") ["GET"] :: []))
             (mkRequest "GET" "/health" []) =
  handlerFor (mkRegistry ([] ++
                route.mk (literalRegexp "/health") (okHandler "up") ["GET"]
                :: routeA :: []))
             (mkRequest "GET" "/health" []).
Proof.
  split; [reflexivity|].
  apply (disjoint_routes_commute [] [] routeA
           (route.mk (literalRegexp "/health") (okHandler "up") ["GET"])
           (mkRequest "GET" "/health" [])).
  reflexivity.
Defined.
